(** * Shallow embedding of the blitz-chess engine core (crate [engine]).

    Integers of fixed width are modelled as [Z] with their wrap-around
    written out; the board is the [[u8; 64]] array as a list of 64 raw
    bytes updated with stdpp's list insert.  A Rust panic ([unwrap] on
    [None], [expect], [unreachable!()]) is modelled as [None] of the
    option monad.  Integer overflow follows the release-mode semantics
    (two's-complement wrap-around). *)

From Stdlib Require Import ZArith Lia Sorting.Sorted.
From Stdlib Require Strings.String Strings.Ascii.
From stdpp Require Import base list option.

Open Scope Z_scope.

(* ------------------------------------------------------------------ *)
(** ** Machine integers *)

Definition u8 (z : Z) : Z := z mod 256.
Definition u16 (z : Z) : Z := z mod 65536.
(** [i8] addition wraps into [-128, 127]. *)
Definition wrap_i8 (z : Z) : Z := (z + 128) mod 256 - 128.
(** Bitwise [!x] on [u8]. *)
Definition not_u8 (z : Z) : Z := Z.lxor z 255.

(* ------------------------------------------------------------------ *)
(** ** board.rs: type definitions *)

Inductive PieceType := Knight | Bishop | Rook | Queen | Pawn | King.

#[global] Instance PieceType_eq_dec : EqDecision PieceType.
Proof. solve_decision. Defined.

(** [#[repr(u8)]] discriminants. *)
Definition PieceType_to_u8 (t : PieceType) : Z :=
  match t with
  | Knight => 0 | Bishop => 1 | Rook => 2 | Queen => 3 | Pawn => 4 | King => 5
  end.

(** [PieceType::from_u8]; [None] is the [unreachable!()] panic. *)
Definition PieceType_from_u8 (value : Z) : option PieceType :=
  match value with
  | 0 => Some Knight | 1 => Some Bishop | 2 => Some Rook
  | 3 => Some Queen | 4 => Some Pawn | 5 => Some King
  | _ => None
  end.

Definition PROMOTABLE : list PieceType := [Knight; Bishop; Rook; Queen].

Inductive Color := White | Black.

#[global] Instance Color_eq_dec : EqDecision Color.
Proof. solve_decision. Defined.

Definition Color_to_u8 (c : Color) : Z := match c with White => 0 | Black => 1 end.

(** [impl Not for Color]. *)
Definition Color_not (c : Color) : Color :=
  match c with White => Black | Black => White end.

Inductive Lateral := Left | Straight | Right.

Definition Lateral_to_i8 (l : Lateral) : Z :=
  match l with Left => -1 | Straight => 0 | Right => 1 end.

(* ------------------------------------------------------------------ *)
(** ** Square: a [u8] *)

Abbreviation Square := Z.

Definition from_coords (rank file : Z) : Square :=
  Z.lor (u8 (Z.shiftl rank 3)) file.
Definition from_index (index : Z) : Square := u8 index.

Definition sq_value (s : Square) : Z := s.
Definition rank (s : Square) : Z := Z.shiftr s 3.
Definition file (s : Square) : Z := Z.land s 7.
Definition index (s : Square) : nat := Z.to_nat s.

Definition in_bounds (r f : Z) : bool :=
  (0 <=? r) && (r <? 8) && (0 <=? f) && (f <? 8).

(** [Square::offset]: [self.rank() as i8 + dr] is an [i8] addition. *)
Definition offset (s : Square) (dr df : Z) : option Square :=
  let r := wrap_i8 (rank s + dr) in
  let f := wrap_i8 (file s + df) in
  if in_bounds r f then Some (from_coords (u8 r) (u8 f)) else None.

Definition forward (s : Square) (color : Color) (steps : Z) (lateral : Lateral)
  : option Square :=
  let '(dr, df) :=
    match color with
    | White => (steps, Lateral_to_i8 lateral)
    | Black => (wrap_i8 (- steps), wrap_i8 (- Lateral_to_i8 lateral))
    end in
  offset s dr df.

(* ------------------------------------------------------------------ *)
(** ** Piece: a [u8] *)

Abbreviation Piece := Z.

Definition OCCUPIED_BIT : Z := 128.
Definition MOVED_BIT : Z := 64.
Definition COLOR_BIT : Z := 8.
Definition PIECE_MASK : Z := 7.

Definition is_empty_value (value : Z) : bool := Z.land value OCCUPIED_BIT =? 0.

Definition Piece_new (piece_type : PieceType) (color : Color) : Piece :=
  Z.lor OCCUPIED_BIT (Z.lor (u8 (Z.shiftl (Color_to_u8 color) 3)) (PieceType_to_u8 piece_type)).

Definition from_value (value : Z) : option Piece :=
  if is_empty_value value then None else Some value.

Definition has_moved (p : Piece) : bool := negb (Z.land p MOVED_BIT =? 0).

(** [Piece::piece_type]; [None] is the panic of [PieceType::from_u8]. *)
Definition piece_type (p : Piece) : option PieceType :=
  PieceType_from_u8 (Z.land p PIECE_MASK).

Definition color (p : Piece) : Color :=
  if negb (Z.land p COLOR_BIT =? 0) then Black else White.

Definition with_moved (p : Piece) : Piece := Z.lor p MOVED_BIT.

(* ------------------------------------------------------------------ *)
(** ** Board: [[u8; 64]] *)

Abbreviation Board := (list Z).

Definition Board_new : Board := replicate 64 0.

(** [board[s]]: indexing with [s.index()].  The array access panics
    out of range; squares built from offsets or decoded from moves are
    always below 64. *)
Definition idx (b : Board) (s : Square) : Z := b !!! index s.

Definition piece_at (b : Board) (s : Square) : option Piece := from_value (idx b s).
Definition is_empty (b : Board) (s : Square) : bool := is_empty_value (idx b s).

(** [Board::pieces]: occupied squares in increasing index order. *)
Definition pieces (b : Board) : list (Square * Piece) :=
  omap (fun i => (fun p => (Z.of_nat i, p)) <$> piece_at b (Z.of_nat i)) (seq 0 64).

(** Mutations return the updated board and the method's result. *)
Definition set_piece (b : Board) (p : Piece) (s : Square) : Board * option Piece :=
  (<[index s := p]> b, from_value (idx b s)).

Definition remove_piece (b : Board) (s : Square) : Board * option Piece :=
  (<[index s := 0]> b, from_value (idx b s)).

(** [self.remove_piece(from).and_then(|piece| self.set_piece(piece.with_moved(), to))] *)
Definition move_piece (b : Board) (from to : Square) : Board * option Piece :=
  let '(b1, r) := remove_piece b from in
  match r with
  | None => (b1, None)
  | Some piece => set_piece b1 (with_moved piece) to
  end.

(* ------------------------------------------------------------------ *)
(** ** castling.rs *)

Inductive CastlingSide := Kingside | Queenside.

Definition CastlingSide_to_u8 (s : CastlingSide) : Z :=
  match s with Kingside => 0 | Queenside => 1 end.

Definition KING_FILE : Z := 4.
Definition rook_source_file (s : CastlingSide) : Z :=
  match s with Kingside => 7 | Queenside => 0 end.
Definition rook_target_file (s : CastlingSide) : Z :=
  match s with Kingside => 5 | Queenside => 3 end.

(** [CastlingRights(u8)]: bit [2 * color + side]. *)
Abbreviation CastlingRights := Z.

Definition bit_position (c : Color) (s : CastlingSide) : Z :=
  Color_to_u8 c * 2 + CastlingSide_to_u8 s.

Definition cr_none : CastlingRights := 0.
Definition cr_all : CastlingRights := 15.

Definition has (r : CastlingRights) (c : Color) (s : CastlingSide) : bool :=
  negb (Z.land r (Z.shiftl 1 (bit_position c s)) =? 0).

Definition gain (r : CastlingRights) (c : Color) (s : CastlingSide) : CastlingRights :=
  Z.lor r (Z.shiftl 1 (bit_position c s)).

Definition lose (r : CastlingRights) (c : Color) (s : CastlingSide) : CastlingRights :=
  Z.land r (not_u8 (Z.shiftl 1 (bit_position c s))).

Definition lose_all (r : CastlingRights) (c : Color) : CastlingRights :=
  lose (lose r c Kingside) c Queenside.

(** [CastlingRights::any], [CastlingRights::is_empty] and
    [CastlingSide::from_rook_file]. *)
Definition any (r : CastlingRights) (c : Color) : bool :=
  has r c Kingside || has r c Queenside.

Definition CastlingRights_is_empty (r : CastlingRights) : bool := r =? 0.

Definition from_rook_file (file : Z) : option CastlingSide :=
  if file =? rook_source_file Kingside then Some Kingside
  else if file =? rook_source_file Queenside then Some Queenside
  else None.

#[global] Instance CastlingSide_eq_dec : EqDecision CastlingSide.
Proof. solve_decision. Defined.

(** The two colours and the two sides, for case analysis by enumeration. *)
Definition COLORS : list Color := [White; Black].

Definition SIDES : list CastlingSide := [Kingside; Queenside].

(* ------------------------------------------------------------------ *)
(** ** mv.rs: [Move(u16)] *)

Inductive MoveType := Normal | Promotion | EnPassant | Castling.

#[global] Instance MoveType_eq_dec : EqDecision MoveType.
Proof. solve_decision. Defined.

Definition MoveType_to_u8 (t : MoveType) : Z :=
  match t with Normal => 0 | Promotion => 1 | EnPassant => 2 | Castling => 3 end.

(** [MoveType::from_u8]; [None] is the [unreachable!()] panic. *)
Definition MoveType_from_u8 (value : Z) : option MoveType :=
  match value with
  | 0 => Some Normal | 1 => Some Promotion | 2 => Some EnPassant | 3 => Some Castling
  | _ => None
  end.

Abbreviation Move := Z.

Definition SOURCE_MASK : Z := 63.

Definition Move_new (source target : Square) : Move :=
  Z.lor (sq_value source) (u16 (Z.shiftl (sq_value target) 6)).

Definition Move_promotion (source target : Square) (promoted_to : PieceType) : Move :=
  Z.lor (Z.lor (Z.lor (sq_value source) (u16 (Z.shiftl (sq_value target) 6)))
               (u16 (Z.shiftl (PieceType_to_u8 promoted_to) 12)))
        (u16 (Z.shiftl (MoveType_to_u8 Promotion) 14)).

Definition Move_en_passant (source target : Square) : Move :=
  Z.lor (Z.lor (sq_value source) (u16 (Z.shiftl (sq_value target) 6)))
        (u16 (Z.shiftl (MoveType_to_u8 EnPassant) 14)).

Definition Move_castling (source target : Square) : Move :=
  Z.lor (Z.lor (sq_value source) (u16 (Z.shiftl (sq_value target) 6)))
        (u16 (Z.shiftl (MoveType_to_u8 Castling) 14)).

Definition source (m : Move) : Square := from_index (Z.land m SOURCE_MASK).
Definition target (m : Move) : Square := from_index (Z.land (Z.shiftr m 6) 63).

(** [MoveType::from_u8] of a two-bit field never reaches its
    [unreachable!()] arm (lemma [MoveType_from_u8_masked]); the
    fallback below is dead. *)
Definition move_type (m : Move) : MoveType :=
  match MoveType_from_u8 (Z.land (Z.shiftr m 14) 3) with
  | Some t => t
  | None => Normal
  end.

(** [Some(PieceType::from_u8(..))] on a two-bit field: the decoding
    never fails there, so the result is [None] exactly off [Promotion]. *)
Definition promotion_piece (m : Move) : option PieceType :=
  match move_type m with
  | Promotion => PieceType_from_u8 (Z.land (Z.shiftr m 12) 3)
  | _ => None
  end.

Definition castling_side (m : Move) : CastlingSide :=
  if file (target m) >? file (source m) then Kingside else Queenside.

Definition castling_rook_squares (m : Move) : Square * Square :=
  let side := castling_side m in
  let r := rank (source m) in
  (from_coords r (rook_source_file side), from_coords r (rook_target_file side)).

Definition en_passant_capture (m : Move) : Square :=
  from_coords (rank (source m)) (file (target m)).

(* ------------------------------------------------------------------ *)
(** ** state.rs *)

Record State := mkState {
  board : Board;
  to_move : Color;
  castling_rights : CastlingRights;
  en_passant : option Square;
  halfmove_clock : Z;   (* u8 *)
  fullmove_number : Z   (* u16 *)
}.

Definition Color_is_black (c : Color) : Z := match c with Black => 1 | White => 0 end.

Definition resulting_en_passant (st : State) (mv : Move) (piece : Piece)
  : option (option Square) :=
  ty ← piece_type piece;
  if decide (ty ≠ Pawn) then Some None else
  let is_double_push := Z.abs (rank (target mv) - rank (source mv)) =? 2 in
  if negb is_double_push then Some None else
  Some (forward (source mv) (to_move st) 1 Straight).

Definition apply_normal (st : State) (mv : Move) : option State :=
  piece ← piece_at (board st) (source mv);
  let '(b', captured) := move_piece (board st) (source mv) (target mv) in
  ty ← piece_type piece;
  let is_pawn := bool_decide (ty = Pawn) in
  ep ← resulting_en_passant st mv piece;
  Some {| board := b';
          to_move := Color_not (to_move st);
          castling_rights := castling_rights st;
          en_passant := ep;
          halfmove_clock :=
            if is_pawn || bool_decide (is_Some captured) then 0 else u8 (halfmove_clock st + 1);
          fullmove_number := u16 (fullmove_number st + Color_is_black (to_move st)) |}.

Definition apply_promotion (st : State) (mv : Move) : option State :=
  let '(b1, _captured) := remove_piece (board st) (target mv) in
  let '(b2, _) := remove_piece b1 (source mv) in
  promo ← promotion_piece mv;
  let promoted := with_moved (Piece_new promo (to_move st)) in
  let '(b3, _) := set_piece b2 promoted (target mv) in
  Some {| board := b3;
          to_move := Color_not (to_move st);
          castling_rights := castling_rights st;
          en_passant := None;
          halfmove_clock := 0;
          fullmove_number := u16 (fullmove_number st + Color_is_black (to_move st)) |}.

Definition apply_en_passant (st : State) (mv : Move) : option State :=
  let '(b1, _) := move_piece (board st) (source mv) (target mv) in
  let '(b2, _) := remove_piece b1 (en_passant_capture mv) in
  Some {| board := b2;
          to_move := Color_not (to_move st);
          castling_rights := castling_rights st;
          en_passant := None;
          halfmove_clock := 0;
          fullmove_number := u16 (fullmove_number st + Color_is_black (to_move st)) |}.

Definition apply_castling (st : State) (mv : Move) : option State :=
  let '(b1, _) := move_piece (board st) (source mv) (target mv) in
  let '(rook_from, rook_to) := castling_rook_squares mv in
  let '(b2, _) := move_piece b1 rook_from rook_to in
  Some {| board := b2;
          to_move := Color_not (to_move st);
          castling_rights := lose_all (castling_rights st) (to_move st);
          en_passant := None;
          halfmove_clock := u8 (halfmove_clock st + 1);
          fullmove_number := u16 (fullmove_number st + Color_is_black (to_move st)) |}.

Definition apply_move (st : State) (mv : Move) : option State :=
  match move_type mv with
  | Normal => apply_normal st mv
  | Promotion => apply_promotion st mv
  | EnPassant => apply_en_passant st mv
  | Castling => apply_castling st mv
  end.

(* ------------------------------------------------------------------ *)
(** ** mobility.rs

    The generators are Rust [gen] blocks; a run of one to completion is
    the list of the moves it yields, and a panic on the way is [None].
    [state.board[sq]] is matched against [None]/[Some(piece)] in this
    file, i.e. it reads the square as [Board::piece_at] does. *)

Definition KNIGHT_OFFSETS : list (Z * Z) :=
  [(-2, -1); (-2, 1); (-1, -2); (-1, 2); (1, -2); (1, 2); (2, -1); (2, 1)].

Definition knight_moves (st : State) (from : Square) : list Move :=
  let c := to_move st in
  flat_map (fun '(dr, df) =>
    match offset from dr df with
    | Some to =>
        match piece_at (board st) to with
        | None => [Move_new from to]
        | Some t => if decide (color t ≠ c) then [Move_new from to] else []
        end
    | None => []
    end) KNIGHT_OFFSETS.

(** The five bodies below are [// TODO] stubs in the source. *)
Definition pawn_moves (st : State) (from : Square) : list Move := [].
Definition bishop_moves (st : State) (from : Square) : list Move := [].
Definition rook_moves (st : State) (from : Square) : list Move := [].
Definition queen_moves (st : State) (from : Square) : list Move := [].
Definition king_moves (st : State) (from : Square) : list Move := [].

Definition moves_of (ty : PieceType) : State -> Square -> list Move :=
  match ty with
  | Pawn => pawn_moves | Knight => knight_moves | Bishop => bishop_moves
  | Rook => rook_moves | Queen => queen_moves | King => king_moves
  end.

Definition pseudo_legal_moves (st : State) : option (list Move) :=
  ms ← mapM (fun '(sq, piece) =>
          if decide (color piece ≠ to_move st) then Some [] else
          ty ← piece_type piece; Some (moves_of ty st sq)) (pieces (board st));
  Some (concat ms).

(** [Iterator::find] over [board.pieces()], then [.expect(..)]. *)
Fixpoint find_king_in (l : list (Square * Piece)) (c : Color) : option Square :=
  match l with
  | [] => None
  | (sq, p) :: l' =>
      ty ← piece_type p;
      if bool_decide (ty = King) && bool_decide (color p = c) then Some sq
      else find_king_in l' c
  end.

Definition find_king (b : Board) (c : Color) : option Square :=
  find_king_in (pieces b) c.

(** Knight attacks only: the slider, pawn and king checks are [// TODO]
    in the source.  [&&] short-circuits, so [piece_type] is only decoded
    for pieces of colour [by]. *)
Fixpoint knight_attack_from (b : Board) (square : Square) (by_ : Color)
    (offs : list (Z * Z)) : option bool :=
  match offs with
  | [] => Some false
  | (dr, df) :: offs' =>
      match offset square dr df with
      | Some sq =>
          match piece_at b sq with
          | Some piece =>
              if decide (color piece = by_) then
                ty ← piece_type piece;
                if decide (ty = Knight) then Some true
                else knight_attack_from b square by_ offs'
              else knight_attack_from b square by_ offs'
          | None => knight_attack_from b square by_ offs'
          end
      | None => knight_attack_from b square by_ offs'
      end
  end.

Definition is_square_attacked (b : Board) (square : Square) (by_ : Color) : option bool :=
  knight_attack_from b square by_ KNIGHT_OFFSETS.

Definition is_legal (st : State) (mv : Move) : option bool :=
  st' ← apply_move st mv;
  king_sq ← find_king (board st') (to_move st);
  att ← is_square_attacked (board st') king_sq (Color_not (to_move st));
  Some (negb att).

Fixpoint filter_legal (st : State) (ms : list Move) : option (list Move) :=
  match ms with
  | [] => Some []
  | mv :: ms' =>
      match is_legal st mv, filter_legal st ms' with
      | Some ok, Some rest => Some (if ok then mv :: rest else rest)
      | _, _ => None
      end
  end.

(** [MoveGenerator::all]. *)
Definition all (st : State) : option (list Move) :=
  ms ← pseudo_legal_moves st; filter_legal st ms.

Definition is_in_check (st : State) : option bool :=
  king_sq ← find_king (board st) (to_move st);
  is_square_attacked (board st) king_sq (Color_not (to_move st)).

(** [MoveGenerator::from]: the filter tests [mv.source() == sq] first and
    only then runs [is_legal]. *)
Fixpoint filter_legal_from (st : State) (sq : Square) (ms : list Move) : option (list Move) :=
  match ms with
  | [] => Some []
  | mv :: ms' =>
      if bool_decide (source mv = sq) then
        match is_legal st mv, filter_legal_from st sq ms' with
        | Some ok, Some rest => Some (if ok then mv :: rest else rest)
        | _, _ => None
        end
      else filter_legal_from st sq ms'
  end.

Definition MoveGenerator_from (st : State) (sq : Square) : option (list Move) :=
  ms ← pseudo_legal_moves st; filter_legal_from st sq ms.

(* ------------------------------------------------------------------ *)
(** ** display.rs *)

(** [{}] on a [u8]: decimal digits, no padding. *)
Definition digit_char (d : Z) : Ascii.ascii := Ascii.ascii_of_nat (Z.to_nat (48 + d)).

Definition u8_decimal (n : Z) : String.string :=
  if n <? 10 then String.String (digit_char n) String.EmptyString
  else if n <? 100 then String.String (digit_char (n / 10)) (String.String (digit_char (n mod 10)) String.EmptyString)
  else String.String (digit_char (n / 100))
         (String.String (digit_char (n / 10 mod 10)) (String.String (digit_char (n mod 10)) String.EmptyString)).

(** [render_square]: [(b'a' + file) as char] then [rank + 1], both [u8]
    additions. *)
Definition render_square (s : Square) : String.string :=
  String.String (Ascii.ascii_of_nat (Z.to_nat (u8 (97 + file s)))) (u8_decimal (u8 (rank s + 1))).

(** The glyphs of [display.rs] as Unicode scalar values. *)
Definition WHITE_KING : Z := 9812.

Definition WHITE_QUEEN : Z := 9813.

Definition WHITE_ROOK : Z := 9814.

Definition WHITE_BISHOP : Z := 9815.

Definition WHITE_KNIGHT : Z := 9816.

Definition WHITE_PAWN : Z := 9817.

Definition BLACK_KING : Z := 9818.

Definition BLACK_QUEEN : Z := 9819.

Definition BLACK_ROOK : Z := 9820.

Definition BLACK_BISHOP : Z := 9821.

Definition BLACK_KNIGHT : Z := 9822.

Definition BLACK_PAWN : Z := 9823.

Definition EMPTY : Z := 183.

(** [piece_char], with characters as Unicode scalar values; [None] is the
    panic of [piece.piece_type()]. *)
Definition piece_char (p : Piece) : option Z :=
  ty ← piece_type p;
  Some (match color p, ty with
        | White, King => WHITE_KING | White, Queen => WHITE_QUEEN
        | White, Rook => WHITE_ROOK | White, Bishop => WHITE_BISHOP
        | White, Knight => WHITE_KNIGHT | White, Pawn => WHITE_PAWN
        | Black, King => BLACK_KING | Black, Queen => BLACK_QUEEN
        | Black, Rook => BLACK_ROOK | Black, Bishop => BLACK_BISHOP
        | Black, Knight => BLACK_KNIGHT | Black, Pawn => BLACK_PAWN
        end).

(* ------------------------------------------------------------------ *)
(** ** Positions used below *)

(** A board from a list of (square, piece) placements. *)
Definition place (l : list (Square * Piece)) : Board :=
  foldl (fun (b : Board) (sp : Square * Piece) => fst (set_piece b sp.2 sp.1)) Board_new l.

Definition back_rank : list PieceType := [Rook; Knight; Bishop; Queen; King; Bishop; Knight; Rook].

Definition initial_board : Board :=
  place (imap (fun (f : nat) (t : PieceType) => (from_coords 0 (Z.of_nat f), Piece_new t White)) back_rank ++
         map (fun f => (from_coords 1 f, Piece_new Pawn White)) [0;1;2;3;4;5;6;7] ++
         map (fun f => (from_coords 6 f, Piece_new Pawn Black)) [0;1;2;3;4;5;6;7] ++
         imap (fun (f : nat) (t : PieceType) => (from_coords 7 (Z.of_nat f), Piece_new t Black)) back_rank).

Definition initial_state : State :=
  {| board := initial_board; to_move := White; castling_rights := cr_all;
     en_passant := None; halfmove_clock := 0; fullmove_number := 1 |}.

(** Whether a square holds a king of colour [c]. *)
Definition is_king_of (c : Color) (o : option Piece) : bool :=
  match o with
  | Some p => bool_decide (piece_type p = Some King) && bool_decide (color p = c)
  | None => false
  end.

(** Number of kings of colour [c] on the 64 squares. *)
Definition king_count (b : Board) (c : Color) : nat :=
  length (List.filter (fun i => is_king_of c (piece_at b (Z.of_nat i))) (seq 0 64)).

(** The side to move does not attack the opponent's king, as the oracle
    sees it: this is what the legality filter established for the
    opponent on the previous move. *)
Definition opp_king_safe (st : State) : bool :=
  forallb (fun i =>
    let k := Z.of_nat i in
    match piece_at (board st) k with
    | Some p =>
        if bool_decide (piece_type p = Some King) && bool_decide (color p ≠ to_move st)
        then bool_decide (is_square_attacked (board st) k (to_move st) = Some false)
        else true
    | None => true
    end) (seq 0 64).

(** Every square of [b] whose byte differs from [b0] and holds a piece
    holds a piece marked as moved. *)
Definition moved_since (b0 b : Board) : Prop :=
  forall q p, piece_at b q = Some p -> idx b q = idx b0 q \/ has_moved p = true.

(** Applying a sequence of moves, left to right. *)
Fixpoint apply_moves (st : State) (ms : list Move) : option State :=
  match ms with
  | [] => Some st
  | m :: ms' => st' ← apply_move st m; apply_moves st' ms'
  end.

(** White king e1, Black king e8, all castling rights, White to move. *)
Definition kings_only_state : State :=
  {| board := place [(4, Piece_new King White); (60, Piece_new King Black)];
     to_move := White; castling_rights := cr_all; en_passant := None;
     halfmove_clock := 0; fullmove_number := 1 |}.

(** As above with a White knight on d6, which reaches e8. *)
Definition knight_checks_state : State :=
  {| board := place [(4, Piece_new King White); (60, Piece_new King Black);
                     (43, Piece_new Knight White)];
     to_move := White; castling_rights := cr_all; en_passant := None;
     halfmove_clock := 0; fullmove_number := 1 |}.

(** A White rook on a1 and a White pawn on e4 next to the two kings. *)
Definition rook_pawn_board : Board :=
  place [(4, Piece_new King White); (60, Piece_new King Black);
         (0, Piece_new Rook White); (28, Piece_new Pawn White)].

(** Black to move with pawns on e7 (Black) and d5 (White). *)
Definition ep_scenario_state : State :=
  {| board := place [(4, Piece_new King White); (60, Piece_new King Black);
                     (52, Piece_new Pawn Black); (35, Piece_new Pawn White)];
     to_move := Black; castling_rights := cr_all; en_passant := None;
     halfmove_clock := 0; fullmove_number := 1 |}.

(* ================================================================== *)
(** * Claims *)

(** C1 (code_bug): [is_square_attacked] only looks for knights.  A White
    rook on a1 has a8 as the first blocker-free square of its file ray,
    a White pawn on e4 captures towards d5 and f5, and the White king on
    e1 reaches e2; the oracle answers [false] for all four squares. *)
Theorem is_square_attacked_misses_non_knights :
  is_square_attacked rook_pawn_board 56 White = Some false /\
  is_square_attacked rook_pawn_board 35 White = Some false /\
  is_square_attacked rook_pawn_board 37 White = Some false /\
  is_square_attacked rook_pawn_board 12 White = Some false.
Proof. vm_compute. repeat split. Qed.

(** C2 (code_bug): a Normal king move e1-e2 leaves every castling right
    in place; the claim requires both White rights to be removed. *)
Theorem king_move_keeps_castling_rights :
  exists st', apply_move kings_only_state (Move_new 4 12) = Some st' /\
    castling_rights st' = cr_all /\
    has (castling_rights st') White Kingside = true /\
    has (castling_rights st') White Queenside = true.
Proof. eexists. vm_compute. repeat split. Qed.

(** C3 (code_bug): on the initial position [MoveGenerator::all] yields
    the four knight moves Nb1-a3, Nb1-c3, Ng1-f3, Ng1-h3 and nothing
    else: 4 moves, not 20. *)
Theorem initial_position_generates_four_moves :
  all initial_state = Some [Move_new 1 16; Move_new 1 18; Move_new 6 21; Move_new 6 23].
Proof. vm_compute. reflexivity. Qed.

(** C4 counterexample: with one king per colour, White to move and a
    White knight on d6 attacking the Black king on e8, the generator
    yields the capture Nd6xe8 and applying it leaves no Black king. *)
Lemma king_capture_generated :
  ~ (forall st ms m st',
       king_count (board st) White = 1%nat -> king_count (board st) Black = 1%nat ->
       all st = Some ms -> In m ms -> apply_move st m = Some st' ->
       king_count (board st') White = 1%nat /\ king_count (board st') Black = 1%nat).
Proof.
  intros H.
  destruct (H knight_checks_state
              [Move_new 43 26; Move_new 43 28; Move_new 43 33; Move_new 43 37;
               Move_new 43 49; Move_new 43 53; Move_new 43 58; Move_new 43 60]
              (Move_new 43 60)
              (match apply_move knight_checks_state (Move_new 43 60) with
               | Some s => s | None => knight_checks_state end))
    as [_ Hb].
  - vm_compute. reflexivity.
  - vm_compute. reflexivity.
  - vm_compute. reflexivity.
  - simpl. tauto.
  - vm_compute. reflexivity.
  - vm_compute in Hb. discriminate.
Qed.

(** C7 counterexample: [Move::promotion] with the non-promotable kind
    [King] (discriminant 0b101) decodes as a promotion to [Bishop]. *)
Lemma promotion_king_decodes_bishop :
  promotion_piece (Move_promotion 48 56 King) = Some Bishop.
Proof. vm_compute. reflexivity. Qed.

(* ================================================================== *)
(** * Lemmas about the codec and the board *)

Lemma range_forallb (f : Z -> bool) (n : nat) :
  forallb f (map Z.of_nat (seq 0 n)) = true ->
  forall z, 0 <= z < Z.of_nat n -> f z = true.
Proof.
  intros Hall z Hz. rewrite forallb_forall in Hall. apply Hall.
  apply in_map_iff. exists (Z.to_nat z). split; [lia|]. apply in_seq. lia.
Qed.

Lemma from_coords_small r f :
  0 <= r < 8 -> 0 <= f < 8 -> from_coords r f = 8 * r + f.
Proof.
  intros Hr Hf.
  assert (r = 0 \/ r = 1 \/ r = 2 \/ r = 3 \/ r = 4 \/ r = 5 \/ r = 6 \/ r = 7) as Er by lia.
  assert (f = 0 \/ f = 1 \/ f = 2 \/ f = 3 \/ f = 4 \/ f = 5 \/ f = 6 \/ f = 7) as Ef by lia.
  destruct Er as [->|[->|[->|[->|[->|[->|[->| ->]]]]]]];
  destruct Ef as [->|[->|[->|[->|[->|[->|[->| ->]]]]]]]; reflexivity.
Qed.

Lemma rank_spec s : 0 <= s -> rank s = s / 8.
Proof. intros Hs. unfold rank. rewrite Z.shiftr_div_pow2 by lia. reflexivity. Qed.

Lemma file_spec s : file s = s mod 8.
Proof. unfold file. change 7 with (Z.ones 3). rewrite Z.land_ones by lia. reflexivity. Qed.

Lemma from_coords_rank_file s : 0 <= s < 64 -> from_coords (rank s) (file s) = s.
Proof.
  intros Hs. rewrite rank_spec, file_spec by lia.
  rewrite from_coords_small; Z.div_mod_to_equations; lia.
Qed.

Lemma source_range m : 0 <= source m < 64.
Proof.
  unfold source, from_index, u8, SOURCE_MASK. change 63 with (Z.ones 6).
  rewrite Z.land_ones by lia. Z.div_mod_to_equations. lia.
Qed.

Lemma target_range m : 0 <= target m < 64.
Proof.
  unfold target, from_index, u8. change 63 with (Z.ones 6).
  rewrite Z.land_ones by lia. Z.div_mod_to_equations. lia.
Qed.

Lemma en_passant_capture_range m : 0 <= en_passant_capture m < 64.
Proof.
  pose proof (source_range m). pose proof (target_range m).
  unfold en_passant_capture. rewrite rank_spec, file_spec by lia.
  rewrite from_coords_small; Z.div_mod_to_equations; lia.
Qed.

Lemma index_inj s q : 0 <= s -> 0 <= q -> index s = index q -> s = q.
Proof. unfold index. lia. Qed.

Lemma idx_insert (b : Board) s q v :
  idx (<[index s := v]> b) q =
  if decide (index s = index q /\ (index s < length b)%nat) then v else idx b q.
Proof. unfold idx. apply list_lookup_total_insert. Qed.

Lemma idx_insert_eq (b : Board) s v :
  length b = 64%nat -> 0 <= s < 64 -> idx (<[index s := v]> b) s = v.
Proof.
  intros Hl Hs. rewrite idx_insert. rewrite decide_True; [done|].
  unfold index. lia.
Qed.

Lemma idx_insert_ne (b : Board) s q v :
  0 <= s -> 0 <= q -> s <> q -> idx (<[index s := v]> b) q = idx b q.
Proof.
  intros Hs Hq Hne. rewrite idx_insert. rewrite decide_False; [done|].
  intros [Heq _]. apply Hne, index_inj; done.
Qed.

Lemma from_value_Some v p : from_value v = Some p -> p = v.
Proof. unfold from_value. destruct (is_empty_value v); congruence. Qed.

Lemma with_moved_bits p :
  Z.land (with_moved p) OCCUPIED_BIT = Z.land p OCCUPIED_BIT /\
  Z.land (with_moved p) PIECE_MASK = Z.land p PIECE_MASK /\
  Z.land (with_moved p) COLOR_BIT = Z.land p COLOR_BIT.
Proof.
  unfold with_moved, MOVED_BIT, OCCUPIED_BIT, PIECE_MASK, COLOR_BIT.
  rewrite !Z.land_lor_distr_l.
  change (Z.land 64 128) with 0. change (Z.land 64 7) with 0. change (Z.land 64 8) with 0.
  rewrite !Z.lor_0_r. done.
Qed.

Lemma has_moved_with_moved p : has_moved (with_moved p) = true.
Proof.
  unfold has_moved, with_moved, MOVED_BIT.
  rewrite Z.land_lor_distr_l, Z.land_diag.
  destruct (Z.lor (Z.land p 64) 64 =? 0) eqn:E; [|done].
  apply Z.eqb_eq, Z.lor_eq_0_iff in E. lia.
Qed.

Lemma from_value_with_moved p :
  from_value p = Some p -> from_value (with_moved p) = Some (with_moved p).
Proof.
  intros H. unfold from_value, is_empty_value in *. destruct (with_moved_bits p) as [-> _].
  destruct (Z.land p OCCUPIED_BIT =? 0); [discriminate | reflexivity].
Qed.

Lemma piece_type_with_moved p : piece_type (with_moved p) = piece_type p.
Proof. unfold piece_type. destruct (with_moved_bits p) as [_ [-> _]]. done. Qed.

Lemma color_with_moved p : color (with_moved p) = color p.
Proof. unfold color. destruct (with_moved_bits p) as [_ [_ ->]]. done. Qed.

Lemma move_piece_occupied b from to p :
  piece_at b from = Some p ->
  move_piece b from to =
    (<[index to := with_moved p]> (<[index from := 0]> b),
     piece_at (<[index from := 0]> b) to).
Proof. unfold piece_at, move_piece, remove_piece, set_piece. intros ->. done. Qed.

Lemma move_piece_empty b from to :
  piece_at b from = None -> move_piece b from to = (<[index from := 0]> b, None).
Proof. unfold piece_at, move_piece, remove_piece. intros ->. done. Qed.

Lemma from_value_Piece_new t c :
  from_value (Piece_new t c) = Some (Piece_new t c).
Proof. destruct t, c; reflexivity. Qed.

Lemma moved_since_refl b : moved_since b b.
Proof. intros q p _. left. done. Qed.

Lemma moved_since_insert b0 b s v :
  moved_since b0 b -> from_value v = None \/ has_moved v = true ->
  moved_since b0 (<[index s := v]> b).
Proof.
  intros H Hv q p Hq. unfold piece_at in Hq. rewrite idx_insert in *.
  case_decide.
  - apply from_value_Some in Hq as Hpv. subst p.
    destruct Hv as [Hv | Hv]; [rewrite Hv in Hq; discriminate | right; exact Hv].
  - apply H. exact Hq.
Qed.

Lemma moved_since_move_piece b0 b from to :
  moved_since b0 b -> moved_since b0 (fst (move_piece b from to)).
Proof.
  intros H. destruct (piece_at b from) as [p|] eqn:Hp.
  - rewrite (move_piece_occupied _ _ _ _ Hp). simpl.
    apply moved_since_insert; [apply moved_since_insert; [exact H | left; done]|].
    right. apply has_moved_with_moved.
  - rewrite (move_piece_empty _ _ _ Hp). simpl.
    apply moved_since_insert; [exact H | left; done].
Qed.

Lemma apply_move_moved_since st m st' :
  apply_move st m = Some st' -> moved_since (board st) (board st').
Proof.
  unfold apply_move. destruct (move_type m).
  - unfold apply_normal.
    destruct (piece_at (board st) (source m)) as [p|]; simpl; [|discriminate].
    destruct (move_piece (board st) (source m) (target m)) as [b' cap] eqn:Em.
    destruct (piece_type p); simpl; [|discriminate].
    destruct (resulting_en_passant st m p); simpl; [|discriminate].
    intros [= <-]. simpl.
    replace b' with (fst (move_piece (board st) (source m) (target m))) by (rewrite Em; done).
    apply moved_since_move_piece, moved_since_refl.
  - unfold apply_promotion, remove_piece, set_piece.
    destruct (promotion_piece m) as [t|]; simpl; [|discriminate].
    intros [= <-]. simpl.
    apply moved_since_insert; [|right; apply has_moved_with_moved].
    apply moved_since_insert; [|left; done].
    apply moved_since_insert; [apply moved_since_refl | left; done].
  - unfold apply_en_passant, remove_piece.
    destruct (move_piece (board st) (source m) (target m)) as [b1 c1] eqn:Em.
    intros [= <-]. simpl.
    apply moved_since_insert; [|left; done].
    replace b1 with (fst (move_piece (board st) (source m) (target m))) by (rewrite Em; done).
    apply moved_since_move_piece, moved_since_refl.
  - unfold apply_castling.
    destruct (move_piece (board st) (source m) (target m)) as [b1 c1] eqn:Em.
    destruct (castling_rook_squares m) as [rf rt].
    destruct (move_piece b1 rf rt) as [b2 c2] eqn:Em2.
    intros [= <-]. simpl.
    replace b2 with (fst (move_piece b1 rf rt)) by (rewrite Em2; done).
    apply moved_since_move_piece.
    replace b1 with (fst (move_piece (board st) (source m) (target m))) by (rewrite Em; done).
    apply moved_since_move_piece, moved_since_refl.
Qed.

Lemma has_lose r c s c' s' : has (lose r c' s') c s = true -> has r c s = true.
Proof.
  unfold has, lose. intros H.
  destruct (Z.land r (Z.shiftl 1 (bit_position c s)) =? 0) eqn:E; [|done].
  apply Z.eqb_eq in E.
  rewrite <- Z.land_assoc, (Z.land_comm (not_u8 _)), Z.land_assoc, E, Z.land_0_l in H.
  discriminate.
Qed.

Lemma apply_move_rights st m st' :
  apply_move st m = Some st' ->
  forall c s, has (castling_rights st') c s = true -> has (castling_rights st) c s = true.
Proof.
  unfold apply_move. destruct (move_type m).
  - unfold apply_normal.
    destruct (piece_at (board st) (source m)) as [p|]; simpl; [|discriminate].
    destruct (move_piece (board st) (source m) (target m)) as [b' cap].
    destruct (piece_type p); simpl; [|discriminate].
    destruct (resulting_en_passant st m p); simpl; [|discriminate].
    intros [= <-]. simpl. done.
  - unfold apply_promotion, remove_piece, set_piece.
    destruct (promotion_piece m); simpl; [|discriminate].
    intros [= <-]. simpl. done.
  - unfold apply_en_passant, remove_piece.
    destruct (move_piece (board st) (source m) (target m)).
    intros [= <-]. simpl. done.
  - unfold apply_castling.
    destruct (move_piece (board st) (source m) (target m)) as [b1 c1].
    destruct (castling_rook_squares m) as [rf rt].
    destruct (move_piece b1 rf rt).
    intros [= <-] c s H. simpl in H. unfold lose_all in H.
    apply has_lose in H. apply has_lose in H. exact H.
Qed.

Lemma range_forallb2 (f : Z -> Z -> bool) :
  forallb (fun s => forallb (f s) (map Z.of_nat (seq 0 64))) (map Z.of_nat (seq 0 64)) = true ->
  forall s t, 0 <= s < 64 -> 0 <= t < 64 -> f s t = true.
Proof.
  intros H s t Hs Ht. apply (range_forallb (f s) 64); [|lia].
  apply (range_forallb _ 64 H s). lia.
Qed.

Lemma rank_file_coords r f :
  0 <= r < 8 -> 0 <= f < 8 -> rank (8 * r + f) = r /\ file (8 * r + f) = f.
Proof.
  intros Hr Hf. rewrite rank_spec, file_spec by lia.
  split; Z.div_mod_to_equations; lia.
Qed.

Lemma wrap_i8_cases x :
  -128 <= x <= 134 ->
  (0 <= x < 8 -> wrap_i8 x = x) /\ (0 <= wrap_i8 x < 8 -> 0 <= x < 8).
Proof. unfold wrap_i8. intros Hx. split; intros H; Z.div_mod_to_equations; lia. Qed.

Lemma in_bounds_spec r f : in_bounds r f = true <-> 0 <= r < 8 /\ 0 <= f < 8.
Proof. unfold in_bounds. rewrite !andb_true_iff, !Z.leb_le, !Z.ltb_lt. tauto. Qed.

Lemma move_new_decode s t :
  0 <= s < 64 -> 0 <= t < 64 ->
  source (Move_new s t) = s /\ target (Move_new s t) = t /\
  move_type (Move_new s t) = Normal /\ promotion_piece (Move_new s t) = None.
Proof.
  intros Hs Ht.
  pose proof (range_forallb2 (fun s t => bool_decide (
    source (Move_new s t) = s /\ target (Move_new s t) = t /\
    move_type (Move_new s t) = Normal /\ promotion_piece (Move_new s t) = None)))
    as H.
  specialize (H ltac:(vm_compute; reflexivity) s t Hs Ht). cbv beta in H.
  exact (bool_decide_eq_true_1 _ H).
Qed.

Lemma move_en_passant_decode s t :
  0 <= s < 64 -> 0 <= t < 64 ->
  source (Move_en_passant s t) = s /\ target (Move_en_passant s t) = t /\
  move_type (Move_en_passant s t) = EnPassant /\ promotion_piece (Move_en_passant s t) = None.
Proof.
  intros Hs Ht.
  pose proof (range_forallb2 (fun s t => bool_decide (
    source (Move_en_passant s t) = s /\ target (Move_en_passant s t) = t /\
    move_type (Move_en_passant s t) = EnPassant /\
    promotion_piece (Move_en_passant s t) = None))) as H.
  specialize (H ltac:(vm_compute; reflexivity) s t Hs Ht). cbv beta in H.
  exact (bool_decide_eq_true_1 _ H).
Qed.

Lemma move_castling_decode s t :
  0 <= s < 64 -> 0 <= t < 64 ->
  source (Move_castling s t) = s /\ target (Move_castling s t) = t /\
  move_type (Move_castling s t) = Castling /\ promotion_piece (Move_castling s t) = None.
Proof.
  intros Hs Ht.
  pose proof (range_forallb2 (fun s t => bool_decide (
    source (Move_castling s t) = s /\ target (Move_castling s t) = t /\
    move_type (Move_castling s t) = Castling /\
    promotion_piece (Move_castling s t) = None))) as H.
  specialize (H ltac:(vm_compute; reflexivity) s t Hs Ht). cbv beta in H.
  exact (bool_decide_eq_true_1 _ H).
Qed.

Lemma move_promotion_decode s t pt :
  0 <= s < 64 -> 0 <= t < 64 -> In pt PROMOTABLE ->
  source (Move_promotion s t pt) = s /\ target (Move_promotion s t pt) = t /\
  move_type (Move_promotion s t pt) = Promotion /\
  promotion_piece (Move_promotion s t pt) = Some pt.
Proof.
  intros Hs Ht Hpt.
  pose proof (range_forallb2 (fun s t => forallb (fun pt => bool_decide (
    source (Move_promotion s t pt) = s /\ target (Move_promotion s t pt) = t /\
    move_type (Move_promotion s t pt) = Promotion /\
    promotion_piece (Move_promotion s t pt) = Some pt)) PROMOTABLE)) as H.
  specialize (H ltac:(vm_compute; reflexivity) s t Hs Ht). cbv beta in H.
  rewrite forallb_forall in H. exact (bool_decide_eq_true_1 _ (H pt Hpt)).
Qed.

(** ** The generator *)

Lemma filter_legal_In st (l r : list Move) m :
  filter_legal st l = Some r -> In m r -> In m l /\ is_legal st m = Some true.
Proof.
  revert r. induction l as [|a l IH]; intros r H Hin; simpl in H.
  - injection H as <-. contradiction.
  - destruct (is_legal st a) as [ok|] eqn:Ea; [|discriminate].
    destruct (filter_legal st l) as [rest|] eqn:El; [|discriminate].
    injection H as <-.
    destruct ok; [destruct Hin as [<- | Hin]; [split; [left; done | exact Ea]|] |];
      destruct (IH rest eq_refl Hin) as [H1 H2]; (split; [right; exact H1 | exact H2]).
Qed.

Lemma in_pieces b sq p : In (sq, p) (pieces b) -> 0 <= sq < 64 /\ piece_at b sq = Some p.
Proof.
  unfold pieces. rewrite <- list_elem_of_In, list_elem_of_omap.
  intros [i [Hi Hf]]. rewrite list_elem_of_In, in_seq in Hi.
  destruct (piece_at b (Z.of_nat i)) as [p'|] eqn:E; simpl in Hf; [|discriminate].
  injection Hf as <- <-. split; [lia | exact E].
Qed.

Lemma Forall2_In_r {A B} (R : A -> B -> Prop) xs ys y :
  Forall2 R xs ys -> In y ys -> exists x, In x xs /\ R x y.
Proof.
  induction 1 as [|x y' xs ys Hxy _ IH]; intros Hin; [contradiction|].
  destruct Hin as [<- | Hin]; [exists x; split; [left; done | exact Hxy]|].
  destruct (IH Hin) as [x' [Hx' Hr]]. exists x'. split; [right; exact Hx' | exact Hr].
Qed.

Lemma pseudo_legal_In st pl m :
  pseudo_legal_moves st = Some pl -> In m pl ->
  exists sq p, In (sq, p) (pieces (board st)) /\ color p = to_move st /\
    piece_type p = Some Knight /\ In m (knight_moves st sq).
Proof.
  unfold pseudo_legal_moves.
  destruct (mapM _ (pieces (board st))) as [ls|] eqn:E; simpl; [|discriminate].
  intros [= <-] Hin. apply mapM_Some_1 in E.
  apply in_concat in Hin as [l [Hl Hm]].
  destruct (Forall2_In_r _ _ _ _ E Hl) as [[sq p] [Hx Hf]]. cbv beta in Hf.
  destruct (decide (color p ≠ to_move st)) as [Hc|Hc].
  - injection Hf as <-. contradiction.
  - destruct (piece_type p) as [ty|] eqn:Et; simpl in Hf; [|discriminate].
    injection Hf as <-.
    destruct ty; simpl in Hm; try contradiction.
    exists sq, p. split; [exact Hx|]. split; [|split; [done | exact Hm]].
    apply dec_stable. exact Hc.
Qed.

Lemma knight_moves_In st sq m :
  In m (knight_moves st sq) ->
  exists dr df to, In (dr, df) KNIGHT_OFFSETS /\ offset sq dr df = Some to /\
    m = Move_new sq to /\
    (piece_at (board st) to = None \/
     exists t, piece_at (board st) to = Some t /\ color t <> to_move st).
Proof.
  unfold knight_moves. rewrite in_flat_map. intros [[dr df] [Hin Hm]].
  destruct (offset sq dr df) as [to|] eqn:Eo; [|contradiction].
  exists dr, df, to. split; [exact Hin|]. split; [done|].
  destruct (piece_at (board st) to) as [t|] eqn:Ep.
  - destruct (decide (color t ≠ to_move st)) as [Hc|Hc]; [|contradiction].
    destruct Hm as [<- | []]. split; [done|]. right. exists t. done.
  - destruct Hm as [<- | []]. split; [done|]. left. done.
Qed.

(** Every knight step on the board lands on another square of the board
    and the opposite step leads back. *)
Lemma knight_geometry sq dr df to :
  0 <= sq < 64 -> In (dr, df) KNIGHT_OFFSETS -> offset sq dr df = Some to ->
  0 <= to < 64 /\ to <> sq /\ In (- dr, - df) KNIGHT_OFFSETS /\
  offset to (- dr) (- df) = Some sq.
Proof.
  intros Hsq Hin Hoff.
  assert (forallb (fun sq => forallb (fun '(dr, df) =>
    match offset sq dr df with
    | Some to => bool_decide (0 <= to < 64 /\ to <> sq /\ (- dr, - df) ∈ KNIGHT_OFFSETS /\
                               offset to (- dr) (- df) = Some sq)
    | None => true
    end) KNIGHT_OFFSETS) (map Z.of_nat (seq 0 64)) = true) as Hchk
    by (vm_compute; reflexivity).
  pose proof (range_forallb _ 64 Hchk sq ltac:(lia)) as H.
  cbv beta in H. rewrite forallb_forall in H. specialize (H (dr, df) Hin).
  cbv beta iota in H. rewrite Hoff in H. apply bool_decide_eq_true_1 in H.
  rewrite list_elem_of_In in H. exact H.
Qed.

Lemma knight_attack_false b sqr by_ offs :
  knight_attack_from b sqr by_ offs = Some false ->
  forall dr df q p, In (dr, df) offs -> offset sqr dr df = Some q ->
  piece_at b q = Some p -> color p = by_ -> piece_type p <> Some Knight.
Proof.
  induction offs as [|[dr0 df0] offs IH]; intros H dr df q p Hin Hoff Hp Hc; [contradiction|].
  simpl in H. destruct Hin as [Heq | Hin].
  - injection Heq as <- <-. rewrite Hoff, Hp in H.
    rewrite decide_True in H by exact Hc.
    intros Hk. rewrite Hk in H. simpl in H. discriminate.
  - refine (IH ?[Htail] dr df q p Hin Hoff Hp Hc).
    destruct (offset sqr dr0 df0) as [q0|]; [|exact H].
    destruct (piece_at b q0) as [p0|]; [|exact H].
    destruct (decide (color p0 = by_)); [|exact H].
    destruct (piece_type p0) as [ty|]; simpl in H; [|discriminate].
    destruct (decide (ty = Knight)); [discriminate | exact H].
Qed.

Lemma opp_king_safe_spec st k t :
  opp_king_safe st = true -> 0 <= k < 64 -> piece_at (board st) k = Some t ->
  piece_type t = Some King -> color t <> to_move st ->
  is_square_attacked (board st) k (to_move st) = Some false.
Proof.
  unfold opp_king_safe. rewrite forallb_forall. intros H Hk Ht Hty Hc.
  specialize (H (Z.to_nat k) ltac:(apply in_seq; lia)). cbv beta zeta in H.
  rewrite Z2Nat.id in H by lia. rewrite Ht in H.
  rewrite (bool_decide_eq_true_2 (piece_type t = Some King)) in H by exact Hty.
  rewrite (bool_decide_eq_true_2 (color t ≠ to_move st)) in H by exact Hc.
  exact (bool_decide_eq_true_1 _ H).
Qed.

Lemma king_count_ext b b' c :
  (forall i, 0 <= i < 64 -> is_king_of c (piece_at b' i) = is_king_of c (piece_at b i)) ->
  king_count b' c = king_count b c.
Proof.
  intros H. unfold king_count. f_equal. apply filter_ext_in.
  intros i Hi. apply in_seq in Hi. apply H. lia.
Qed.

Lemma is_king_of_not_king c o p :
  o = Some p -> piece_type p <> Some King -> is_king_of c o = false.
Proof.
  intros -> Hp. unfold is_king_of. rewrite bool_decide_eq_false_2 by exact Hp. done.
Qed.

Lemma apply_normal_board st m st' :
  move_type m = Normal -> apply_move st m = Some st' ->
  board st' = fst (move_piece (board st) (source m) (target m)).
Proof.
  intros Ht. unfold apply_move. rewrite Ht. unfold apply_normal.
  destruct (piece_at (board st) (source m)) as [p|]; simpl; [|discriminate].
  destruct (move_piece (board st) (source m) (target m)) as [b' cap].
  destruct (piece_type p); simpl; [|discriminate].
  destruct (resulting_en_passant st m p); simpl; [|discriminate].
  intros [= <-]. done.
Qed.


Lemma knight_step_kings (st : State) sq to p dr df :
  opp_king_safe st = true -> 0 <= sq < 64 -> 0 <= to < 64 -> to <> sq ->
  piece_at (board st) sq = Some p -> color p = to_move st ->
  piece_type p = Some Knight ->
  In (- dr, - df) KNIGHT_OFFSETS -> offset to (- dr) (- df) = Some sq ->
  (piece_at (board st) to = None \/
     exists t, piece_at (board st) to = Some t /\ color t <> to_move st) ->
  forall c i, 0 <= i < 64 ->
    is_king_of c (piece_at (fst (move_piece (board st) sq to)) i)
    = is_king_of c (piece_at (board st) i).
Proof.
  intros Hsafe Hsq Hto Hne Hp Hcol Hty Hinv Hoff' Htgt c i Hi.
  rewrite (move_piece_occupied _ _ _ _ Hp). cbn [fst].
  assert (from_value p = Some p) as Hfp.
  { apply from_value_Some in Hp as Hpv. unfold piece_at in Hp.
    rewrite <- Hpv in Hp. exact Hp. }
  unfold piece_at at 1. rewrite idx_insert. case_decide as Hd.
  - destruct Hd as [Hd _]. apply index_inj in Hd; [|lia|lia]. subst i.
    rewrite (from_value_with_moved _ Hfp).
    rewrite (is_king_of_not_king c _ (with_moved p) eq_refl)
      by (rewrite piece_type_with_moved, Hty; discriminate).
    destruct Htgt as [Hnone | (t & Ht & Htc)].
    + rewrite Hnone. done.
    + symmetry. apply (is_king_of_not_king c _ t Ht). intros Htk.
      pose proof (opp_king_safe_spec _ _ _ Hsafe Hto Ht Htk Htc) as Hatt.
      apply (knight_attack_false _ _ _ _ Hatt (- dr) (- df) sq p Hinv Hoff' Hp Hcol).
      exact Hty.
  - rewrite idx_insert. case_decide as Hd'.
    + destruct Hd' as [Hd' _]. apply index_inj in Hd'; [|lia|lia]. subst i.
      rewrite (is_king_of_not_king c _ p Hp) by (rewrite Hty; discriminate).
      done.
    + done.
Qed.

Lemma all_Some st ms :
  all st = Some ms -> exists pl, pseudo_legal_moves st = Some pl /\ filter_legal st pl = Some ms.
Proof.
  unfold all. destruct (pseudo_legal_moves st) as [pl|]; [|discriminate].
  intros H. exists pl. split; [reflexivity | exact H].
Qed.

Lemma all_knight st ms m :
  all st = Some ms -> In m ms ->
  exists sq p dr df to, 0 <= sq < 64 /\ piece_at (board st) sq = Some p /\
    color p = to_move st /\ piece_type p = Some Knight /\
    In (dr, df) KNIGHT_OFFSETS /\ offset sq dr df = Some to /\ m = Move_new sq to /\
    (piece_at (board st) to = None \/
     exists t, piece_at (board st) to = Some t /\ color t <> to_move st) /\
    is_legal st m = Some true.
Proof.
  intros Hall Hin.
  destruct (all_Some _ _ Hall) as (pl & Epl & Hf).
  destruct (filter_legal_In _ _ _ _ Hf Hin) as [Hinpl Hlegal].
  destruct (pseudo_legal_In _ _ _ Epl Hinpl) as (sq & p & Hpc & Hcol & Hty & Hkm).
  destruct (in_pieces _ _ _ Hpc) as [Hsq Hp].
  destruct (knight_moves_In _ _ _ Hkm) as (dr & df & to & Hoffs & Hoff & Hm & Htgt).
  exists sq, p, dr, df, to.
  exact (conj Hsq (conj Hp (conj Hcol (conj Hty (conj Hoffs (conj Hoff (conj Hm (conj Htgt Hlegal)))))))).
Qed.


(* ================================================================== *)
(** * Lemmas about the rest of the code *)

Lemma pieces_from_sorted (b : Board) (n start : nat) :
  Forall (fun x => Z.of_nat start <= x)
    (map fst (omap (fun i => (fun p => (Z.of_nat i, p)) <$> piece_at b (Z.of_nat i)) (seq start n))) /\
  StronglySorted Z.lt
    (map fst (omap (fun i => (fun p => (Z.of_nat i, p)) <$> piece_at b (Z.of_nat i)) (seq start n))).
Proof.
  revert start. induction n as [|n IH]; intros start; simpl.
  - split; constructor.
  - destruct (IH (S start)) as [Hge Hs].
    destruct (piece_at b (Z.of_nat start)) as [p|]; simpl.
    + split.
      * constructor; [lia|]. refine (Forall_impl _ _ Hge). intros x Hx. lia.
      * constructor; [exact Hs|]. refine (Forall_impl _ _ Hge). intros x Hx. lia.
    + split; [|exact Hs]. refine (Forall_impl _ _ Hge). intros x Hx. lia.
Qed.

Lemma in_COLORS c : In c COLORS. Proof. destruct c; simpl; tauto. Qed.

Lemma in_SIDES s : In s SIDES. Proof. destruct s; simpl; tauto. Qed.

Ltac forall_cs H c s :=
  rewrite forallb_forall in H; specialize (H c (in_COLORS c));
  rewrite forallb_forall in H; specialize (H s (in_SIDES s)).

Lemma bit_position_range c s : 0 <= bit_position c s < 4.
Proof. destruct c, s; unfold bit_position; simpl; lia. Qed.

Lemma bit_position_inj c s c' s' :
  bit_position c s = bit_position c' s' <-> c = c' /\ s = s'.
Proof.
  destruct c, s, c', s'; unfold bit_position; simpl; split; intros H;
    first [done | (exfalso; lia) | (destruct H as [H1 H2]; discriminate)].
Qed.

Lemma has_testbit r c s : has r c s = Z.testbit r (bit_position c s).
Proof.
  unfold has. pose proof (bit_position_range c s) as Hb.
  rewrite Z.shiftl_1_l.
  destruct (Z.testbit r (bit_position c s)) eqn:E.
  - assert (Z.land r (2 ^ bit_position c s) <> 0) as Hne.
    { intros H0. assert (Z.testbit (Z.land r (2 ^ bit_position c s)) (bit_position c s) = false)
        as H1 by (rewrite H0; apply Z.testbit_0_l).
      rewrite Z.land_spec, E, Z.pow2_bits_true in H1 by lia. discriminate. }
    apply Z.eqb_neq in Hne. rewrite Hne. reflexivity.
  - assert (Z.land r (2 ^ bit_position c s) = 0) as H0.
    { apply Z.bits_inj'. intros n Hn. rewrite Z.land_spec, Z.testbit_0_l, Z.pow2_bits_eqb by lia.
      destruct (Z.eqb_spec (bit_position c s) n) as [<-|]; [rewrite E; done | apply andb_false_r]. }
    rewrite H0. reflexivity.
Qed.

Lemma has_gain_lose_spec (r : CastlingRights) (c : Color) (s : CastlingSide) c' s' :
  has (gain r c s) c' s' = has r c' s' || bool_decide (c = c' /\ s = s') /\
  has (lose r c s) c' s' = has r c' s' && negb (bool_decide (c = c' /\ s = s')).
Proof.
  pose proof (bit_position_range c s). pose proof (bit_position_range c' s').
  rewrite !has_testbit. unfold gain, lose, not_u8. rewrite Z.shiftl_1_l.
  rewrite Z.lor_spec, Z.land_spec, Z.lxor_spec, Z.pow2_bits_eqb by lia.
  replace (Z.testbit 255 (bit_position c' s')) with true
    by (destruct c', s'; reflexivity).
  destruct (Z.eqb_spec (bit_position c s) (bit_position c' s')) as [E|E].
  - apply bit_position_inj in E. rewrite bool_decide_eq_true_2 by exact E.
    destruct (Z.testbit r (bit_position c' s')); split; reflexivity.
  - rewrite bool_decide_eq_false_2 by (rewrite <- bit_position_inj; exact E).
    destruct (Z.testbit r (bit_position c' s')); split; reflexivity.
Qed.

Lemma promotion_piece_Some m :
  move_type m = Promotion -> exists pt, promotion_piece m = Some pt.
Proof.
  intros Ht. unfold promotion_piece. rewrite Ht.
  assert (0 <= Z.land (Z.shiftr m 12) 3 < 4) as Hr.
  { change 3 with (Z.ones 2). rewrite Z.land_ones by lia.
    apply Z.mod_pos_bound. lia. }
  assert (Z.land (Z.shiftr m 12) 3 = 0 \/ Z.land (Z.shiftr m 12) 3 = 1 \/
          Z.land (Z.shiftr m 12) 3 = 2 \/ Z.land (Z.shiftr m 12) 3 = 3) as Hc by lia.
  destruct Hc as [E|[E|[E|E]]]; rewrite E; eexists; reflexivity.
Qed.

Lemma resulting_en_passant_Some st m p ty :
  piece_type p = Some ty -> exists e, resulting_en_passant st m p = Some e.
Proof.
  intros Ht. unfold resulting_en_passant. rewrite Ht. simpl.
  case_decide; [eexists; reflexivity|].
  destruct (negb _); eexists; reflexivity.
Qed.

Lemma forward_1_straight s c :
  0 <= s < 64 ->
  forward s c 1 Straight =
    match c with
    | White => if rank s <? 7 then Some (s + 8) else None
    | Black => if 0 <? rank s then Some (s - 8) else None
    end.
Proof.
  intros Hs.
  assert (forallb (fun s => bool_decide (forward s White 1 Straight =
            if rank s <? 7 then Some (s + 8) else None) &&
          bool_decide (forward s Black 1 Straight =
            if 0 <? rank s then Some (s - 8) else None)) (map Z.of_nat (seq 0 64)) = true)
    as Hchk by (vm_compute; reflexivity).
  pose proof (range_forallb _ 64 Hchk s ltac:(lia)) as H.
  apply andb_true_iff in H as [H1 H2]. apply bool_decide_eq_true in H1, H2.
  destruct c; assumption.
Qed.

Lemma castling_rook_squares_range m rf rt :
  castling_rook_squares m = (rf, rt) -> 0 <= rf < 64 /\ 0 <= rt < 64.
Proof.
  unfold castling_rook_squares. intros [= <- <-].
  pose proof (source_range m) as Hs.
  assert (0 <= rank (source m) < 8).
  { rewrite rank_spec by lia. split; [apply Z.div_pos; lia | apply Z.div_lt_upper_bound; lia]. }
  destruct (castling_side m); simpl; rewrite !from_coords_small by lia; lia.
Qed.

Lemma filter_legal_from_filter st sq (l r : list Move) :
  filter_legal st l = Some r ->
  filter_legal_from st sq l = Some (List.filter (fun m => bool_decide (source m = sq)) r).
Proof.
  revert r. induction l as [|a l IH]; intros r H; simpl in H.
  - injection H as <-. reflexivity.
  - destruct (is_legal st a) as [ok|] eqn:Ea; [|discriminate].
    destruct (filter_legal st l) as [rest|] eqn:El; [|discriminate].
    injection H as <-. simpl. rewrite (IH rest eq_refl).
    case_bool_decide as Hs.
    + rewrite Ea. destruct ok; simpl; [rewrite bool_decide_eq_true_2 by exact Hs|]; reflexivity.
    + destruct ok; simpl; [rewrite bool_decide_eq_false_2 by exact Hs|]; reflexivity.
Qed.

Lemma knight_offset_iff sq to dr df :
  0 <= sq < 64 -> 0 <= to < 64 -> In (dr, df) KNIGHT_OFFSETS ->
  (offset sq dr df = Some to <-> rank to - rank sq = dr /\ file to - file sq = df).
Proof.
  intros Hsq Hto Hin.
  assert (forallb (fun sq => forallb (fun to => forallb (fun '(dr, df) =>
    bool_decide (offset sq dr df = Some to <-> rank to - rank sq = dr /\ file to - file sq = df))
    KNIGHT_OFFSETS) (map Z.of_nat (seq 0 64))) (map Z.of_nat (seq 0 64)) = true) as Hchk
    by (vm_compute; reflexivity).
  pose proof (range_forallb2 _ Hchk sq to Hsq Hto) as H. cbv beta in H.
  rewrite forallb_forall in H. specialize (H (dr, df) Hin). cbv beta iota in H.
  exact (bool_decide_eq_true_1 _ H).
Qed.

Lemma knight_offsets_abs dr df :
  In (dr, df) KNIGHT_OFFSETS <->
  (Z.abs dr = 1 /\ Z.abs df = 2) \/ (Z.abs dr = 2 /\ Z.abs df = 1).
Proof.
  split.
  - simpl. intros H. repeat destruct H as [H|H]; try injection H as <- <-; try contradiction; simpl; lia.
  - intros H.
    assert ((dr = 1 \/ dr = -1) /\ (df = 2 \/ df = -2) \/
            (dr = 2 \/ dr = -2) /\ (df = 1 \/ df = -1)) as H' by lia.
    destruct H' as [[[-> | ->] [-> | ->]] | [[-> | ->] [-> | ->]]]; simpl; tauto.
Qed.

Lemma knight_attack_true b sqr by_ offs :
  knight_attack_from b sqr by_ offs = Some true ->
  exists dr df q p, In (dr, df) offs /\ offset sqr dr df = Some q /\
    piece_at b q = Some p /\ color p = by_ /\ piece_type p = Some Knight.
Proof.
  induction offs as [|[dr0 df0] offs IH]; intros H; [discriminate|].
  cbn [knight_attack_from] in H.
  destruct (offset sqr dr0 df0) as [q0|] eqn:Eo;
    [|destruct (IH H) as (dr & df & q & p & ?); exists dr, df, q, p; simpl; tauto].
  destruct (piece_at b q0) as [p0|] eqn:Ep;
    [|destruct (IH H) as (dr & df & q & p & ?); exists dr, df, q, p; simpl; tauto].
  destruct (decide (color p0 = by_)) as [Hc|Hc];
    [|destruct (IH H) as (dr & df & q & p & ?); exists dr, df, q, p; simpl; tauto].
  apply bind_Some in H as (ty & Ety & H).
  destruct (decide (ty = Knight)) as [->|Hk].
  - exists dr0, df0, q0, p0. split_and!; [left; reflexivity | exact Eo | exact Ep | exact Hc | exact Ety].
  - destruct (IH H) as (dr & df & q & p & ?); exists dr, df, q, p; simpl; tauto.
Qed.

Lemma knight_attack_total b sqr by_ offs :
  (forall dr df q p, In (dr, df) offs -> offset sqr dr df = Some q ->
     piece_at b q = Some p -> color p = by_ -> piece_type p <> None) ->
  exists r, knight_attack_from b sqr by_ offs = Some r.
Proof.
  induction offs as [|[dr0 df0] offs IH]; intros H; [exists false; reflexivity|].
  assert (exists r, knight_attack_from b sqr by_ offs = Some r) as [r Hr]
    by (apply IH; intros dr df q p Hin; apply H; right; exact Hin).
  cbn [knight_attack_from].
  destruct (offset sqr dr0 df0) as [q0|] eqn:Eo; [|exists r; exact Hr].
  destruct (piece_at b q0) as [p0|] eqn:Ep; [|exists r; exact Hr].
  destruct (decide (color p0 = by_)) as [Hc|Hc]; [|exists r; exact Hr].
  destruct (piece_type p0) as [ty|] eqn:Ety;
    [|exfalso; exact (H dr0 df0 q0 p0 (or_introl eq_refl) Eo Ep Hc Ety)].
  simpl. destruct (decide (ty = Knight)); [exists true; reflexivity | exists r; exact Hr].
Qed.

Lemma omap_cons_eq {A B} (f : A -> option B) x l :
  omap f (x :: l) = match f x with Some y => y :: omap f l | None => omap f l end.
Proof. reflexivity. Qed.

Lemma is_king_of_Some c p ty :
  piece_type p = Some ty ->
  is_king_of c (Some p) = bool_decide (ty = King) && bool_decide (color p = c).
Proof. intros H. unfold is_king_of. rewrite H. destruct ty; reflexivity. Qed.

Lemma find_king_in_seq b c n start k :
  find_king_in (omap (fun i => (fun p => (Z.of_nat i, p)) <$> piece_at b (Z.of_nat i))
                     (seq start n)) c = Some k ->
  Z.of_nat start <= k < Z.of_nat (start + n) /\ is_king_of c (piece_at b k) = true /\
  forall j, Z.of_nat start <= j < k -> is_king_of c (piece_at b j) = false.
Proof.
  revert start. induction n as [|n IH]; intros start H; [discriminate|].
  cbn [seq] in H. rewrite omap_cons_eq in H.
  destruct (piece_at b (Z.of_nat start)) as [p|] eqn:Ep; cbn [fmap option_fmap option_map] in H.
  - cbn [find_king_in] in H. apply bind_Some in H as (ty & Ety & H).
    destruct (bool_decide (ty = King) && bool_decide (color p = c)) eqn:Eb.
    + injection H as <-. split; [lia|]. split; [|intros j Hj; lia].
      rewrite Ep, (is_king_of_Some c p ty Ety). exact Eb.
    + destruct (IH (S start) H) as (Hk & Hking & Hbelow).
      split; [lia|]. split; [exact Hking|].
      intros j Hj. destruct (decide (j = Z.of_nat start)) as [->|Hne].
      * rewrite Ep, (is_king_of_Some c p ty Ety). exact Eb.
      * apply Hbelow. lia.
  - destruct (IH (S start) H) as (Hk & Hking & Hbelow).
    split; [lia|]. split; [exact Hking|].
    intros j Hj. destruct (decide (j = Z.of_nat start)) as [->|Hne].
    + rewrite Ep. reflexivity.
    + apply Hbelow. lia.
Qed.

Lemma find_king_in_seq_none b c n start :
  (forall j p, Z.of_nat start <= j < Z.of_nat (start + n) -> piece_at b j = Some p ->
     piece_type p <> None) ->
  find_king_in (omap (fun i => (fun p => (Z.of_nat i, p)) <$> piece_at b (Z.of_nat i))
                     (seq start n)) c = None ->
  forall j, Z.of_nat start <= j < Z.of_nat (start + n) -> is_king_of c (piece_at b j) = false.
Proof.
  revert start. induction n as [|n IH]; intros start Hdec H j Hj; [lia|].
  cbn [seq] in H. rewrite omap_cons_eq in H.
  destruct (piece_at b (Z.of_nat start)) as [p|] eqn:Ep; cbn [fmap option_fmap option_map] in H.
  - cbn [find_king_in] in H.
    destruct (piece_type p) as [ty|] eqn:Ety;
      [|exfalso; exact (Hdec (Z.of_nat start) p ltac:(lia) Ep Ety)].
    cbn [mbind option_bind] in H.
    destruct (bool_decide (ty = King) && bool_decide (color p = c)) eqn:Eb; [discriminate|].
    destruct (decide (j = Z.of_nat start)) as [->|Hne].
    + rewrite Ep, (is_king_of_Some c p ty Ety). exact Eb.
    + apply (IH (S start)); [|exact H|lia].
      intros j' p' Hj'. apply Hdec. lia.
  - destruct (decide (j = Z.of_nat start)) as [->|Hne].
    + rewrite Ep. reflexivity.
    + apply (IH (S start)); [|exact H|lia].
      intros j' p' Hj'. apply Hdec. lia.
Qed.

Lemma king_count_zero b c :
  king_count b c = 0%nat <-> forall j, 0 <= j < 64 -> is_king_of c (piece_at b j) = false.
Proof.
  unfold king_count. split.
  - intros H j Hj. destruct (is_king_of c (piece_at b j)) eqn:E; [|reflexivity].
    assert (In (Z.to_nat j) (List.filter (fun i => is_king_of c (piece_at b (Z.of_nat i))) (seq 0 64)))
      as Hin by (apply filter_In; split; [apply in_seq; lia | rewrite Z2Nat.id by lia; exact E]).
    destruct (List.filter _ _); [contradiction | discriminate].
  - intros H. apply length_zero_iff_nil.
    destruct (List.filter _ _) as [|i l] eqn:E; [reflexivity|].
    assert (In i (List.filter (fun i => is_king_of c (piece_at b (Z.of_nat i))) (seq 0 64)))
      as Hin by (rewrite E; left; reflexivity).
    apply filter_In in Hin as [Hi Hk]. apply in_seq in Hi.
    rewrite (H (Z.of_nat i) ltac:(lia)) in Hk. discriminate.
Qed.

Lemma pieces_eq b :
  pieces b = omap (fun i => (fun p => (Z.of_nat i, p)) <$> piece_at b (Z.of_nat i)) (seq 0 64).
Proof. reflexivity. Qed.

Lemma find_king_eq b c : find_king b c = find_king_in (pieces b) c.
Proof. reflexivity. Qed.


(* ================================================================== *)
(** * Claims settled by proof *)

(** C5: applying moves never restores a castling right: if [has] is
    false for (colour, side) before a sequence of applied moves (a single
    move being the sequence of length one), it is false afterwards. *)
Theorem castling_rights_never_regained (st : State) (ms : list Move) (st' : State)
    (c : Color) (side : CastlingSide) :
  apply_moves st ms = Some st' ->
  has (castling_rights st) c side = false ->
  has (castling_rights st') c side = false.
Proof.
  revert st. induction ms as [|m ms IH]; intros st Hms Hno; simpl in Hms.
  - injection Hms as <-. exact Hno.
  - destruct (apply_move st m) as [st1|] eqn:E; simpl in Hms; [|discriminate].
    apply (IH st1 Hms).
    destruct (has (castling_rights st1) c side) eqn:E1; [|done].
    rewrite (apply_move_rights st m st1 E c side E1) in Hno. discriminate.
Qed.

(** C9: [Board::move_piece] from an empty square returns [None] and
    every square reads as before; an occupant of [to] stays. *)
Theorem move_piece_from_empty (b : Board) (from to : Square) :
  piece_at b from = None ->
  snd (move_piece b from to) = None /\
  forall q, piece_at (fst (move_piece b from to)) q = piece_at b q.
Proof.
  intros H. rewrite (move_piece_empty _ _ _ H). split; [done|].
  intros q. cbn [fst]. unfold piece_at at 1. rewrite idx_insert. case_decide as Hd; [|done].
  destruct Hd as [Heq _]. transitivity (piece_at b from).
  - rewrite H. reflexivity.
  - unfold piece_at, idx. rewrite Heq. reflexivity.
Qed.

(** C10: after [move_piece] from an occupied square the piece on [to]
    is the moved piece, with [has_moved] set and the same kind and
    colour; every square that [apply_move] changes to an occupied one
    holds a piece with [has_moved] set; and a promotion leaves a moved
    piece on its target. *)
Theorem relocated_pieces_are_moved :
  (forall (b : Board) (from to : Square) (p : Piece),
     length b = 64%nat -> 0 <= to < 64 -> piece_at b from = Some p ->
     exists p', piece_at (fst (move_piece b from to)) to = Some p' /\
       has_moved p' = true /\ piece_type p' = piece_type p /\ color p' = color p) /\
  (forall (st : State) (m : Move) (st' : State),
     apply_move st m = Some st' -> moved_since (board st) (board st')) /\
  (forall (st : State) (m : Move) (st' : State),
     length (board st) = 64%nat -> move_type m = Promotion ->
     apply_move st m = Some st' ->
     exists p, piece_at (board st') (target m) = Some p /\ has_moved p = true).
Proof.
  split; [|split].
  - intros b from to p Hl Hto Hp. exists (with_moved p).
    rewrite (move_piece_occupied _ _ _ _ Hp). cbn [fst]. unfold piece_at at 1.
    rewrite idx_insert_eq by (rewrite ?length_insert; done).
    apply from_value_Some in Hp as Hpv.
    assert (from_value p = Some p) as Hfp.
    { unfold piece_at in Hp. rewrite <- Hpv in Hp. exact Hp. }
    rewrite (from_value_with_moved p Hfp).
    split; [done|]. split; [apply has_moved_with_moved|].
    split; [apply piece_type_with_moved | apply color_with_moved].
  - exact apply_move_moved_since.
  - intros st m st' Hl Ht. unfold apply_move. rewrite Ht.
    unfold apply_promotion, remove_piece, set_piece.
    destruct (promotion_piece m) as [t|]; simpl; [|discriminate].
    intros [= <-]. simpl. exists (with_moved (Piece_new t (to_move st))).
    unfold piece_at. rewrite idx_insert_eq; [| rewrite !length_insert; done | apply target_range].
    rewrite (from_value_with_moved _ (from_value_Piece_new _ _)).
    split; [done | apply has_moved_with_moved].
Qed.

(** C8: [Square::offset] returns [None] exactly when the shifted
    coordinates leave [0,8) x [0,8), and otherwise the square with
    exactly those coordinates; the [i8] wrap-around of the coordinate
    sum never yields a square. *)
Theorem offset_exact (s dr df : Z) :
  0 <= s < 64 -> -128 <= dr <= 127 -> -128 <= df <= 127 ->
  (offset s dr df = None <-> ~ (0 <= rank s + dr < 8 /\ 0 <= file s + df < 8)) /\
  (forall q, offset s dr df = Some q ->
     0 <= q < 64 /\ rank q = rank s + dr /\ file q = file s + df).
Proof.
  intros Hs Hdr Hdf.
  assert (0 <= rank s < 8) by (rewrite rank_spec by lia; Z.div_mod_to_equations; lia).
  assert (0 <= file s < 8) by (rewrite file_spec; Z.div_mod_to_equations; lia).
  destruct (wrap_i8_cases (rank s + dr) ltac:(lia)) as [Wr1 Wr2].
  destruct (wrap_i8_cases (file s + df) ltac:(lia)) as [Wf1 Wf2].
  unfold offset. destruct (in_bounds _ _) eqn:E.
  - apply in_bounds_spec in E as [Er Ef].
    specialize (Wr2 Er). specialize (Wf2 Ef).
    rewrite (Wr1 Wr2), (Wf1 Wf2). unfold u8.
    rewrite (Z.mod_small (rank s + dr)), (Z.mod_small (file s + df)) by lia.
    rewrite from_coords_small by lia.
    split; [split; [discriminate | intros Hn; exfalso; apply Hn; lia]|].
    intros q [= <-].
    destruct (rank_file_coords (rank s + dr) (file s + df)) as [-> ->]; [lia..|].
    split; [lia | done].
  - split; [split; [intros _ [Hr Hf] | done] | discriminate].
    rewrite (Wr1 Hr), (Wf1 Hf) in E.
    assert (in_bounds (rank s + dr) (file s + df) = true) by (apply in_bounds_spec; lia).
    congruence.
Qed.

(** C7 (amended): [Move::new], [Move::en_passant] and [Move::castling]
    on in-range squares, and [Move::promotion] on in-range squares with a
    promotable kind, decode to exactly the constructed source, target and
    category; [promotion_piece] is [Some] of the constructed kind for a
    promotion and [None] for the other three. *)
Theorem move_fields_roundtrip :
  (forall s t, 0 <= s < 64 -> 0 <= t < 64 ->
     source (Move_new s t) = s /\ target (Move_new s t) = t /\
     move_type (Move_new s t) = Normal /\ promotion_piece (Move_new s t) = None) /\
  (forall s t pt, 0 <= s < 64 -> 0 <= t < 64 -> In pt PROMOTABLE ->
     source (Move_promotion s t pt) = s /\ target (Move_promotion s t pt) = t /\
     move_type (Move_promotion s t pt) = Promotion /\
     promotion_piece (Move_promotion s t pt) = Some pt) /\
  (forall s t, 0 <= s < 64 -> 0 <= t < 64 ->
     source (Move_en_passant s t) = s /\ target (Move_en_passant s t) = t /\
     move_type (Move_en_passant s t) = EnPassant /\
     promotion_piece (Move_en_passant s t) = None) /\
  (forall s t, 0 <= s < 64 -> 0 <= t < 64 ->
     source (Move_castling s t) = s /\ target (Move_castling s t) = t /\
     move_type (Move_castling s t) = Castling /\ promotion_piece (Move_castling s t) = None).
Proof.
  split; [exact move_new_decode|].
  split; [exact move_promotion_decode|].
  split; [exact move_en_passant_decode | exact move_castling_decode].
Qed.

(** C6: applying an EnPassant move whose source holds a pawn puts that
    pawn (marked as moved) on the target, empties the source and the
    square [en_passant_capture] = (source rank, target file), and leaves
    every other square as it was.  The capture square differs from the
    target for every en-passant move, whose target lies one rank beyond
    its source. *)
Theorem en_passant_relocates_and_captures (st : State) (m : Move) (p : Piece) :
  length (board st) = 64%nat ->
  move_type m = EnPassant ->
  piece_at (board st) (source m) = Some p ->
  piece_type p = Some Pawn ->
  en_passant_capture m <> target m ->
  exists st', apply_move st m = Some st' /\
    piece_at (board st') (target m) = Some (with_moved p) /\
    piece_at (board st') (source m) = None /\
    piece_at (board st') (en_passant_capture m) = None /\
    (forall q, 0 <= q < 64 -> q <> source m -> q <> target m ->
       q <> en_passant_capture m -> idx (board st') q = idx (board st) q).
Proof.
  intros Hl Ht Hp _ Hne.
  pose proof (source_range m) as Hs. pose proof (target_range m) as Htg.
  pose proof (en_passant_capture_range m) as Hc.
  assert (source m <> target m) as Hst.
  { intros Heq. apply Hne. unfold en_passant_capture. rewrite <- Heq.
    apply from_coords_rank_file. exact Hs. }
  assert (from_value p = Some p) as Hfp.
  { apply from_value_Some in Hp as Hpv. unfold piece_at in Hp.
    rewrite <- Hpv in Hp. exact Hp. }
  unfold apply_move. rewrite Ht. unfold apply_en_passant, remove_piece.
  rewrite (move_piece_occupied _ _ _ _ Hp).
  eexists. split; [reflexivity|]. cbn [board].
  split; [|split; [|split]].
  - unfold piece_at. rewrite idx_insert_ne by lia.
    rewrite idx_insert_eq by (rewrite ?length_insert; done).
    apply from_value_with_moved. exact Hfp.
  - unfold piece_at. rewrite idx_insert. case_decide; [reflexivity|].
    rewrite idx_insert_ne by lia. rewrite idx_insert_eq by done. reflexivity.
  - unfold piece_at. rewrite idx_insert_eq by (rewrite ?length_insert; done). reflexivity.
  - intros q Hq H1 H2 H3. rewrite !idx_insert_ne by lia. reflexivity.
Qed.

(** C4 (amended): from a position with one king per colour in which
    the side to move does not already attack the opponent's king (as
    [is_square_attacked] sees it, which the legality filter of the
    opponent's previous move guarantees), every move yielded by
    [MoveGenerator::all] applies and leaves exactly one king per
    colour. *)
Theorem legal_moves_keep_kings (st : State) (ms : list Move) (m : Move) :
  king_count (board st) White = 1%nat -> king_count (board st) Black = 1%nat ->
  opp_king_safe st = true ->
  all st = Some ms -> In m ms ->
  exists st', apply_move st m = Some st' /\
    king_count (board st') White = 1%nat /\ king_count (board st') Black = 1%nat.
Proof.
  intros Hw Hb Hsafe Hall Hin.
  destruct (all_knight _ _ _ Hall Hin)
    as (sq & p & dr & df & to & Hsq & Hp & Hcol & Hty & Hoffs & Hoff & -> & Htgt & Hlegal).
  destruct (knight_geometry _ _ _ _ Hsq Hoffs Hoff) as (Hto & Hne & Hinv & Hoff').
  destruct (move_new_decode _ _ Hsq Hto) as (Es & Et & Ety & _).
  unfold is_legal in Hlegal.
  destruct (apply_move st (Move_new sq to)) as [st'|] eqn:Eap; [|discriminate].
  exists st'. split; [reflexivity|].
  pose proof (apply_normal_board _ _ _ Ety Eap) as Hbd.
  rewrite Es, Et in Hbd. rewrite Hbd.
  pose proof (knight_step_kings st sq to p dr df Hsafe Hsq Hto Hne Hp Hcol Hty
                Hinv Hoff' Htgt) as Hsame.
  split.
  - rewrite <- Hw. apply king_count_ext. intros i Hi. apply Hsame. exact Hi.
  - rewrite <- Hb. apply king_count_ext. intros i Hi. apply Hsame. exact Hi.
Qed.

(* ================================================================== *)
(** * Further properties of the code *)

(** A piece built by [Piece::new] decodes back to its kind and colour, is not
    marked as moved, and is accepted by [Piece::from_value]. *)
Theorem Piece_new_decode t c :
  piece_type (Piece_new t c) = Some t /\ color (Piece_new t c) = c /\
  has_moved (Piece_new t c) = false /\ from_value (Piece_new t c) = Some (Piece_new t c).
Proof. destruct t, c; split_and!; reflexivity. Qed.

(** [with_moved] keeps the kind, the colour and the occupied bit, sets the
    moved flag, and is idempotent. *)
Theorem with_moved_keeps_fields p :
  piece_type (with_moved p) = piece_type p /\ color (with_moved p) = color p /\
  is_empty_value (with_moved p) = is_empty_value p /\ has_moved (with_moved p) = true /\
  with_moved (with_moved p) = with_moved p.
Proof.
  split; [apply piece_type_with_moved|]. split; [apply color_with_moved|].
  split; [unfold is_empty_value; destruct (with_moved_bits p) as [-> _]; reflexivity|].
  split; [apply has_moved_with_moved|].
  unfold with_moved. rewrite <- Z.lor_assoc, Z.lor_diag. reflexivity.
Qed.

(** [Square::from_coords] and [(rank, file)] are inverse bijections between
    the coordinates 0..7 x 0..7 and the squares 0..63. *)
Theorem square_coords_roundtrip :
  (forall r f, 0 <= r < 8 -> 0 <= f < 8 ->
     0 <= from_coords r f < 64 /\ rank (from_coords r f) = r /\ file (from_coords r f) = f) /\
  (forall s, 0 <= s < 64 ->
     0 <= rank s < 8 /\ 0 <= file s < 8 /\ from_coords (rank s) (file s) = s).
Proof.
  split.
  - intros r f Hr Hf. rewrite from_coords_small by lia.
    destruct (rank_file_coords r f Hr Hf) as [-> ->]. split; [lia|done].
  - intros s Hs. rewrite rank_spec, file_spec by lia.
    split; [split; [apply Z.div_pos; lia | apply Z.div_lt_upper_bound; lia]|].
    split; [apply Z.mod_pos_bound; lia|].
    rewrite <- rank_spec, <- file_spec by lia. apply from_coords_rank_file. exact Hs.
Qed.


(** One straight step forward moves a square up a rank (+8) for White and
    down a rank (-8) for Black, and is [None] from the last rank. *)
Theorem forward_one_step s c :
  0 <= s < 64 ->
  forward s c 1 Straight =
    match c with
    | White => if rank s <? 7 then Some (s + 8) else None
    | Black => if 0 <? rank s then Some (s - 8) else None
    end.
Proof. exact (forward_1_straight s c). Qed.

(** [Board::set_piece] returns the piece previously on the square, places the
    new piece there and leaves every other square unchanged. *)
Theorem set_piece_spec (b : Board) (p : Piece) (s : Square) :
  length b = 64%nat -> 0 <= s < 64 -> is_empty_value p = false ->
  snd (set_piece b p s) = piece_at b s /\
  piece_at (fst (set_piece b p s)) s = Some p /\
  length (fst (set_piece b p s)) = 64%nat /\
  (forall q, 0 <= q -> q <> s -> idx (fst (set_piece b p s)) q = idx b q).
Proof.
  intros Hl Hs Hp. unfold set_piece. cbn [fst snd].
  split; [reflexivity|]. split.
  { unfold piece_at. rewrite idx_insert_eq by done. unfold from_value. rewrite Hp. done. }
  split; [rewrite length_insert; exact Hl|].
  intros q Hq Hne. apply idx_insert_ne; lia.
Qed.

(** [Board::remove_piece] returns the piece previously on the square, leaves
    the square empty and every other square unchanged. *)
Theorem remove_piece_spec (b : Board) (s : Square) :
  length b = 64%nat -> 0 <= s < 64 ->
  snd (remove_piece b s) = piece_at b s /\
  piece_at (fst (remove_piece b s)) s = None /\
  is_empty (fst (remove_piece b s)) s = true /\
  (forall q, 0 <= q -> q <> s -> idx (fst (remove_piece b s)) q = idx b q).
Proof.
  intros Hl Hs. unfold remove_piece. cbn [fst snd].
  split; [reflexivity|].
  unfold piece_at, is_empty. rewrite idx_insert_eq by done.
  split; [reflexivity|]. split; [reflexivity|].
  intros q Hq Hne. apply idx_insert_ne; lia.
Qed.

(** [Board::move_piece] from an occupied square returns the piece that stood
    on the target (the capture), empties the source, puts the moved-marked
    piece on the target and touches nothing else; when source and target
    coincide it returns [None] and leaves the moved-marked piece in place. *)
Theorem move_piece_returns_capture (b : Board) (from to : Square) (p : Piece) :
  length b = 64%nat -> 0 <= from < 64 -> 0 <= to < 64 -> piece_at b from = Some p ->
  (from <> to ->
     snd (move_piece b from to) = piece_at b to /\
     piece_at (fst (move_piece b from to)) from = None /\
     piece_at (fst (move_piece b from to)) to = Some (with_moved p) /\
     (forall q, 0 <= q -> q <> from -> q <> to -> idx (fst (move_piece b from to)) q = idx b q)) /\
  (from = to ->
     snd (move_piece b from to) = None /\
     piece_at (fst (move_piece b from to)) from = Some (with_moved p) /\
     (forall q, 0 <= q -> q <> from -> idx (fst (move_piece b from to)) q = idx b q)).
Proof.
  intros Hl Hf Ht Hp.
  assert (from_value p = Some p) as Hfp.
  { apply from_value_Some in Hp as Hpv. unfold piece_at in Hp. rewrite <- Hpv in Hp. exact Hp. }
  rewrite (move_piece_occupied _ _ _ _ Hp). cbn [fst snd]. split.
  - intros Hne. unfold piece_at.
    rewrite (idx_insert_ne _ from to) by lia.
    split; [reflexivity|].
    split; [rewrite (idx_insert_ne _ to from) by lia;
            rewrite idx_insert_eq by done; reflexivity|].
    split; [rewrite idx_insert_eq by (rewrite ?length_insert; done);
            apply from_value_with_moved; exact Hfp|].
    intros q Hq H1 H2. rewrite !idx_insert_ne by lia. reflexivity.
  - intros <-. unfold piece_at.
    split; [rewrite idx_insert_eq by done; reflexivity|].
    split; [rewrite idx_insert_eq by (rewrite ?length_insert; done);
            apply from_value_with_moved; exact Hfp|].
    intros q Hq H1. rewrite !idx_insert_ne by lia. reflexivity.
Qed.

(** [Board::pieces] lists exactly the occupied squares of the board with
    their pieces, in strictly increasing square order. *)
Theorem pieces_spec (b : Board) :
  (forall sq p, In (sq, p) (pieces b) <-> 0 <= sq < 64 /\ piece_at b sq = Some p) /\
  StronglySorted Z.lt (map fst (pieces b)).
Proof.
  split.
  - intros sq p. split; [apply in_pieces|].
    intros [Hsq Hp]. unfold pieces. rewrite <- list_elem_of_In, list_elem_of_omap.
    exists (Z.to_nat sq). split.
    + rewrite list_elem_of_In, in_seq. lia.
    + rewrite Z2Nat.id by lia. rewrite Hp. reflexivity.
  - apply (pieces_from_sorted b 64 0).
Qed.

(** [gain] adds exactly one right and [lose] removes exactly one right; all
    other rights are unchanged. *)
Theorem gain_lose_has (r : CastlingRights) (c : Color) (s : CastlingSide) c' s' :
  has (gain r c s) c' s' = has r c' s' || bool_decide (c = c' /\ s = s') /\
  has (lose r c s) c' s' = has r c' s' && negb (bool_decide (c = c' /\ s = s')).
Proof. apply has_gain_lose_spec. Qed.

(** [lose_all] clears both rights of the given colour, keeps the other
    colour's rights, and leaves [any] false for that colour. *)
Theorem lose_all_spec (r : CastlingRights) (c : Color) :
  (forall s, has (lose_all r c) c s = false) /\
  (forall c' s, c' <> c -> has (lose_all r c) c' s = has r c' s) /\
  any (lose_all r c) c = false.
Proof.
  assert (forall c' s, has (lose_all r c) c' s =
            has r c' s && negb (bool_decide (c = c' /\ Queenside = s))
                       && negb (bool_decide (c = c' /\ Kingside = s))) as H.
  { intros c' s. unfold lose_all.
    destruct (has_gain_lose_spec (lose r c Kingside) c Queenside c' s) as [_ ->].
    destruct (has_gain_lose_spec r c Kingside c' s) as [_ ->].
    destruct (has r c' s), (bool_decide (c = c' /\ Queenside = s)),
             (bool_decide (c = c' /\ Kingside = s)); reflexivity. }
  split; [|split].
  - intros s. rewrite H. destruct s.
    + rewrite (bool_decide_eq_true_2 (c = c /\ Kingside = Kingside)) by done.
      rewrite !andb_false_r. reflexivity.
    + rewrite (bool_decide_eq_true_2 (c = c /\ Queenside = Queenside)) by done.
      rewrite andb_false_r. reflexivity.
  - intros c' s Hc. rewrite H.
    rewrite !bool_decide_eq_false_2 by (intros [? _]; congruence).
    rewrite !andb_true_r. reflexivity.
  - unfold any. rewrite !H.
    rewrite (bool_decide_eq_true_2 (c = c /\ Kingside = Kingside)) by done.
    rewrite (bool_decide_eq_true_2 (c = c /\ Queenside = Queenside)) by done.
    rewrite !andb_false_r. reflexivity.
Qed.

(** On rights values of four bits, [is_empty] holds iff no right is held,
    and [gain], [lose] and [lose_all] stay within four bits. *)
Theorem rights_stay_four_bits (r : CastlingRights) :
  0 <= r < 16 ->
  (CastlingRights_is_empty r = true <-> forall c s, has r c s = false) /\
  (forall c s, 0 <= gain r c s < 16 /\ 0 <= lose r c s < 16) /\
  (forall c, 0 <= lose_all r c < 16).
Proof.
  intros Hr.
  assert (forallb (fun r =>
     Bool.eqb (CastlingRights_is_empty r)
              (forallb (fun c => forallb (fun s => negb (has r c s)) SIDES) COLORS) &&
     forallb (fun c => forallb (fun s =>
        bool_decide (0 <= gain r c s < 16 /\ 0 <= lose r c s < 16)) SIDES &&
        bool_decide (0 <= lose_all r c < 16)) COLORS)
     (map Z.of_nat (seq 0 16)) = true) as Hchk by (vm_compute; reflexivity).
  pose proof (range_forallb _ 16 Hchk r ltac:(lia)) as H. cbv beta in H.
  apply andb_true_iff in H as [He Hgl].
  split; [|split].
  - apply Bool.eqb_prop in He. rewrite He. split.
    + intros Hf c s. rewrite forallb_forall in Hf. specialize (Hf c (in_COLORS c)).
      rewrite forallb_forall in Hf. specialize (Hf s (in_SIDES s)).
      apply negb_true_iff in Hf. exact Hf.
    + intros Hf. apply forallb_forall. intros c _. apply forallb_forall. intros s _.
      rewrite Hf. reflexivity.
  - intros c s. rewrite forallb_forall in Hgl. specialize (Hgl c (in_COLORS c)).
    apply andb_true_iff in Hgl as [Hgl _]. rewrite forallb_forall in Hgl.
    specialize (Hgl s (in_SIDES s)). apply bool_decide_eq_true in Hgl. exact Hgl.
  - intros c. rewrite forallb_forall in Hgl. specialize (Hgl c (in_COLORS c)).
    apply andb_true_iff in Hgl as [_ Hgl]. apply bool_decide_eq_true in Hgl. exact Hgl.
Qed.

(** [CastlingSide::from_rook_file] recognises exactly the two rook home files
    and returns the side whose rook starts there. *)
Theorem from_rook_file_spec (f : Z) (s : CastlingSide) :
  from_rook_file f = Some s <-> f = rook_source_file s.
Proof.
  unfold from_rook_file. simpl.
  destruct (Z.eqb_spec f 7) as [->|H7]; [destruct s; simpl; split; congruence|].
  destruct (Z.eqb_spec f 0) as [->|H0]; [destruct s; simpl; split; congruence|].
  destruct s; simpl; split; congruence.
Qed.

(** For a king castling from the e-file of any rank, e->g is king-side with
    the rook moving h->f, and e->c is queen-side with the rook moving a->d. *)
Theorem castling_rook_squares_standard (r : Z) :
  0 <= r < 8 ->
  castling_side (Move_castling (from_coords r 4) (from_coords r 6)) = Kingside /\
  castling_rook_squares (Move_castling (from_coords r 4) (from_coords r 6)) =
    (from_coords r 7, from_coords r 5) /\
  castling_side (Move_castling (from_coords r 4) (from_coords r 2)) = Queenside /\
  castling_rook_squares (Move_castling (from_coords r 4) (from_coords r 2)) =
    (from_coords r 0, from_coords r 3).
Proof.
  intros Hr.
  assert (r = 0 \/ r = 1 \/ r = 2 \/ r = 3 \/ r = 4 \/ r = 5 \/ r = 6 \/ r = 7) as Hc by lia.
  repeat destruct Hc as [-> | Hc]; try subst r; vm_compute; split_and!; reflexivity.
Qed.

(** For a diagonal pawn step, [en_passant_capture] is the square beside the
    source on the target's file: one rank behind the target. *)
Theorem en_passant_capture_behind_target (s t : Square) :
  0 <= s < 64 -> 0 <= t < 64 -> Z.abs (file t - file s) = 1 ->
  (rank t = rank s + 1 -> en_passant_capture (Move_en_passant s t) = t - 8) /\
  (rank t = rank s - 1 -> en_passant_capture (Move_en_passant s t) = t + 8) /\
  en_passant_capture (Move_en_passant s t) = s + (file t - file s).
Proof.
  intros Hs Ht Hf.
  assert (forallb (fun s => forallb (fun t =>
     implb (Z.abs (file t - file s) =? 1)
       (implb (rank t =? rank s + 1) (en_passant_capture (Move_en_passant s t) =? t - 8) &&
        implb (rank t =? rank s - 1) (en_passant_capture (Move_en_passant s t) =? t + 8) &&
        (en_passant_capture (Move_en_passant s t) =? s + (file t - file s))))
     (map Z.of_nat (seq 0 64))) (map Z.of_nat (seq 0 64)) = true) as Hchk
    by (vm_compute; reflexivity).
  pose proof (range_forallb2 _ Hchk s t Hs Ht) as H. cbv beta in H.
  apply Z.eqb_eq in Hf. rewrite Hf in H. simpl in H.
  apply andb_true_iff in H as [H H3]. apply andb_true_iff in H as [H1 H2].
  split; [|split].
  - intros E. apply Z.eqb_eq in E. rewrite E in H1. apply Z.eqb_eq. exact H1.
  - intros E. apply Z.eqb_eq in E. rewrite E in H2. apply Z.eqb_eq. exact H2.
  - apply Z.eqb_eq. exact H3.
Qed.

(** Every successful [apply_move] hands the turn to the other colour and
    increments the full-move number (mod 2^16) after a Black move only. *)
Theorem apply_move_common_updates st m st' :
  apply_move st m = Some st' ->
  to_move st' = Color_not (to_move st) /\
  fullmove_number st' = u16 (fullmove_number st + Color_is_black (to_move st)).
Proof.
  unfold apply_move. destruct (move_type m).
  - unfold apply_normal.
    destruct (piece_at (board st) (source m)) as [p|]; simpl; [|discriminate].
    destruct (move_piece (board st) (source m) (target m)) as [b' cap].
    destruct (piece_type p); simpl; [|discriminate].
    destruct (resulting_en_passant st m p); simpl; [|discriminate].
    intros [= <-]. done.
  - unfold apply_promotion.
    destruct (remove_piece (board st) (target m)) as [b1 c1].
    destruct (remove_piece b1 (source m)) as [b2 c2].
    destruct (promotion_piece m) as [pt|]; simpl; [|discriminate].
    destruct (set_piece b2 (with_moved (Piece_new pt (to_move st))) (target m)). intros [= <-]. done.
  - unfold apply_en_passant.
    destruct (move_piece (board st) (source m) (target m)) as [b1 c1].
    destruct (remove_piece b1 (en_passant_capture m)). intros [= <-]. done.
  - unfold apply_castling.
    destruct (move_piece (board st) (source m) (target m)) as [b1 c1].
    destruct (castling_rook_squares m) as [rf rt].
    destruct (move_piece b1 rf rt). intros [= <-]. done.
Qed.

(** The half-move clock is reset by pawn moves and captures of a normal
    move, by every promotion and en-passant move, and incremented (mod 256)
    otherwise, including by castling. *)
Theorem apply_move_halfmove_clock st m st' :
  length (board st) = 64%nat -> apply_move st m = Some st' ->
  halfmove_clock st' =
    match move_type m with
    | Normal =>
        if match piece_at (board st) (source m) with
           | Some p => bool_decide (piece_type p = Some Pawn)
           | None => false
           end || (bool_decide (source m <> target m) && negb (is_empty (board st) (target m)))
        then 0 else u8 (halfmove_clock st + 1)
    | Promotion | EnPassant => 0
    | Castling => u8 (halfmove_clock st + 1)
    end.
Proof.
  intros Hl. unfold apply_move. destruct (move_type m).
  - unfold apply_normal.
    destruct (piece_at (board st) (source m)) as [p|] eqn:Hp; simpl; [|discriminate].
    rewrite (move_piece_occupied _ _ _ _ Hp).
    destruct (piece_type p) as [ty|] eqn:Ht; simpl; [|discriminate].
    destruct (resulting_en_passant st m p); simpl; [|discriminate].
    intros [= <-]. cbn [halfmove_clock].
    replace (bool_decide (ty = Pawn)) with (bool_decide (Some ty = Some Pawn))
      by (apply bool_decide_ext; split; [intros [=]|intros ->]; done).
    f_equal. f_equal.
    pose proof (source_range m). pose proof (target_range m).
    destruct (decide (source m = target m)) as [E|E].
    + rewrite (bool_decide_eq_false_2 (source m ≠ target m)) by (intros Hne; exact (Hne E)).
      unfold piece_at. rewrite <- E, idx_insert_eq by done. reflexivity.
    + rewrite (bool_decide_eq_true_2 (source m ≠ target m)) by exact E.
      unfold piece_at, is_empty. rewrite idx_insert_ne by lia.
      unfold from_value. destruct (is_empty_value (idx (board st) (target m))); reflexivity.
  - unfold apply_promotion.
    destruct (remove_piece (board st) (target m)) as [b1 c1].
    destruct (remove_piece b1 (source m)) as [b2 c2].
    destruct (promotion_piece m) as [pt|]; simpl; [|discriminate].
    destruct (set_piece b2 (with_moved (Piece_new pt (to_move st))) (target m)). intros [= <-]. done.
  - unfold apply_en_passant.
    destruct (move_piece (board st) (source m) (target m)) as [b1 c1].
    destruct (remove_piece b1 (en_passant_capture m)). intros [= <-]. done.
  - unfold apply_castling.
    destruct (move_piece (board st) (source m) (target m)) as [b1 c1].
    destruct (castling_rook_squares m) as [rf rt].
    destruct (move_piece b1 rf rt). intros [= <-]. done.
Qed.

(** [apply_move] panics exactly on a normal move whose source square is empty
    or holds an undecodable piece; the other three move types never panic. *)
Theorem apply_move_fails_iff st m :
  apply_move st m = None <->
  move_type m = Normal /\
  match piece_at (board st) (source m) with
  | None => True
  | Some p => piece_type p = None
  end.
Proof.
  unfold apply_move. destruct (move_type m) eqn:Ht.
  - unfold apply_normal.
    destruct (piece_at (board st) (source m)) as [p|]; simpl; [|tauto].
    destruct (move_piece (board st) (source m) (target m)) as [b' cap].
    destruct (piece_type p) as [ty|] eqn:Hty; simpl; [|tauto].
    destruct (resulting_en_passant_Some st m p ty Hty) as [e ->]. simpl.
    split; [discriminate | intros [_ H]; discriminate].
  - unfold apply_promotion.
    destruct (remove_piece (board st) (target m)) as [b1 c1].
    destruct (remove_piece b1 (source m)) as [b2 c2].
    destruct (promotion_piece_Some m Ht) as [pt ->]. simpl.
    destruct (set_piece b2 (with_moved (Piece_new pt (to_move st))) (target m)).
    split; [discriminate | intros [H _]; discriminate].
  - unfold apply_en_passant.
    destruct (move_piece (board st) (source m) (target m)) as [b1 c1].
    destruct (remove_piece b1 (en_passant_capture m)).
    split; [discriminate | intros [H _]; discriminate].
  - unfold apply_castling.
    destruct (move_piece (board st) (source m) (target m)) as [b1 c1].
    destruct (castling_rook_squares m) as [rf rt].
    destruct (move_piece b1 rf rt).
    split; [discriminate | intros [H _]; discriminate].
Qed.

(** After a move, the en-passant square is set only by a normal pawn move of
    two ranks, to the square one step forward from the source for the side
    that moved; otherwise it is [None]. *)
Theorem apply_move_en_passant_target st m st' :
  apply_move st m = Some st' ->
  en_passant st' =
    match move_type m, piece_at (board st) (source m) with
    | Normal, Some p =>
        if bool_decide (piece_type p = Some Pawn) &&
           (Z.abs (rank (target m) - rank (source m)) =? 2)
        then match to_move st with
             | White => if rank (source m) <? 7 then Some (source m + 8) else None
             | Black => if 0 <? rank (source m) then Some (source m - 8) else None
             end
        else None
    | _, _ => None
    end.
Proof.
  unfold apply_move. destruct (move_type m).
  - unfold apply_normal.
    destruct (piece_at (board st) (source m)) as [p|]; simpl; [|discriminate].
    destruct (move_piece (board st) (source m) (target m)) as [b' cap].
    destruct (piece_type p) as [ty|] eqn:Hty; simpl; [|discriminate].
    unfold resulting_en_passant. rewrite Hty. simpl.
    destruct (decide (ty ≠ Pawn)) as [Hne|Hp].
    + simpl. intros [= <-]. cbn [en_passant].
      rewrite bool_decide_eq_false_2 by congruence. reflexivity.
    + apply dec_stable in Hp. subst ty.
      rewrite bool_decide_eq_true_2 by reflexivity. simpl.
      destruct (Z.abs (rank (target m) - rank (source m)) =? 2); simpl;
        intros [= <-]; cbn [en_passant]; [apply forward_1_straight, source_range | reflexivity].
  - unfold apply_promotion.
    destruct (remove_piece (board st) (target m)) as [b1 c1].
    destruct (remove_piece b1 (source m)) as [b2 c2].
    destruct (promotion_piece m) as [pt|]; simpl; [|discriminate].
    destruct (set_piece b2 (with_moved (Piece_new pt (to_move st))) (target m)).
    intros [= <-]. destruct (piece_at (board st) (source m)); reflexivity.
  - unfold apply_en_passant.
    destruct (move_piece (board st) (source m) (target m)) as [b1 c1].
    destruct (remove_piece b1 (en_passant_capture m)).
    intros [= <-]. destruct (piece_at (board st) (source m)); reflexivity.
  - unfold apply_castling.
    destruct (move_piece (board st) (source m) (target m)) as [b1 c1].
    destruct (castling_rook_squares m) as [rf rt].
    destruct (move_piece b1 rf rt).
    intros [= <-]. destruct (piece_at (board st) (source m)); reflexivity.
Qed.

(** An en-passant move does not check its source: from an empty source it
    still succeeds, empties the capture square and touches nothing else. *)
Theorem en_passant_from_empty_source st m :
  length (board st) = 64%nat -> move_type m = EnPassant ->
  piece_at (board st) (source m) = None ->
  exists st', apply_move st m = Some st' /\
    piece_at (board st') (source m) = None /\
    piece_at (board st') (en_passant_capture m) = None /\
    (forall q, 0 <= q < 64 -> q <> source m -> q <> en_passant_capture m ->
       idx (board st') q = idx (board st) q).
Proof.
  intros Hl Ht Hp.
  pose proof (source_range m). pose proof (en_passant_capture_range m).
  unfold apply_move. rewrite Ht. unfold apply_en_passant, remove_piece.
  rewrite (move_piece_empty _ _ _ Hp).
  eexists. split; [reflexivity|]. cbn [board].
  split; [|split].
  - unfold piece_at. rewrite idx_insert.
    case_decide; [reflexivity|].
    rewrite idx_insert_eq by done. reflexivity.
  - unfold piece_at. rewrite idx_insert_eq by (rewrite ?length_insert; done). reflexivity.
  - intros q Hq H1 H2. rewrite !idx_insert_ne by lia. reflexivity.
Qed.

(** A promotion puts a new moved-marked piece of the promoted kind and the
    mover's colour on the target, empties the source, touches nothing else,
    keeps the castling rights and clears the en-passant square, whatever
    stood on the source. *)
Theorem apply_promotion_outcome st m :
  length (board st) = 64%nat -> move_type m = Promotion -> source m <> target m ->
  exists pt st', promotion_piece m = Some pt /\ apply_move st m = Some st' /\
    piece_at (board st') (target m) = Some (with_moved (Piece_new pt (to_move st))) /\
    piece_at (board st') (source m) = None /\
    (forall q, 0 <= q < 64 -> q <> source m -> q <> target m ->
       idx (board st') q = idx (board st) q) /\
    castling_rights st' = castling_rights st /\ en_passant st' = None.
Proof.
  intros Hl Ht Hne.
  pose proof (source_range m). pose proof (target_range m).
  destruct (promotion_piece_Some m Ht) as [pt Hpt].
  exists pt. unfold apply_move. rewrite Ht. unfold apply_promotion, remove_piece, set_piece.
  rewrite Hpt. simpl. eexists. split; [reflexivity|]. split; [reflexivity|]. cbn [board].
  split; [|split; [|split; [|split]]]; try reflexivity.
  - unfold piece_at. rewrite idx_insert_eq by (rewrite ?length_insert; done).
    apply from_value_with_moved, from_value_Piece_new.
  - unfold piece_at. rewrite idx_insert_ne by lia.
    rewrite idx_insert_eq by (rewrite ?length_insert; done). reflexivity.
  - intros q Hq H1 H2. rewrite !idx_insert_ne by lia. reflexivity.
Qed.

(** A castling move with four distinct squares relocates the king and the
    rook, both marked as moved, empties their home squares, touches nothing
    else, drops both rights of the side that castled and clears the
    en-passant square. *)
Theorem apply_castling_outcome st m rf rt k rk :
  length (board st) = 64%nat -> move_type m = Castling ->
  castling_rook_squares m = (rf, rt) ->
  NoDup [source m; target m; rf; rt] ->
  piece_at (board st) (source m) = Some k -> piece_at (board st) rf = Some rk ->
  exists st', apply_move st m = Some st' /\
    piece_at (board st') (target m) = Some (with_moved k) /\
    piece_at (board st') rt = Some (with_moved rk) /\
    piece_at (board st') (source m) = None /\ piece_at (board st') rf = None /\
    (forall q, 0 <= q < 64 -> q <> source m -> q <> target m -> q <> rf -> q <> rt ->
       idx (board st') q = idx (board st) q) /\
    castling_rights st' = lose_all (castling_rights st) (to_move st) /\
    en_passant st' = None.
Proof.
  intros Hl Ht Hr Hnd Hk Hrk.
  pose proof (source_range m). pose proof (target_range m).
  destruct (castling_rook_squares_range _ _ _ Hr) as [Hrf Hrt].
  rewrite !list.NoDup_cons, !not_elem_of_cons in Hnd.
  destruct Hnd as ((Hst & Hsf & Hsr & _) & (Htf & Htr & _) & (Hfr & _) & _).
  assert (from_value k = Some k) as Hfk.
  { apply from_value_Some in Hk as Hv. unfold piece_at in Hk. rewrite <- Hv in Hk. exact Hk. }
  assert (from_value rk = Some rk) as Hfrk.
  { apply from_value_Some in Hrk as Hv. unfold piece_at in Hrk. rewrite <- Hv in Hrk. exact Hrk. }
  unfold apply_move. rewrite Ht. unfold apply_castling.
  rewrite (move_piece_occupied _ _ _ _ Hk). rewrite Hr.
  assert (piece_at (<[index (target m) := with_moved k]> (<[index (source m) := 0]> (board st))) rf
          = Some rk) as Hrk'.
  { unfold piece_at. rewrite !idx_insert_ne by lia. exact Hrk. }
  rewrite (move_piece_occupied _ _ _ _ Hrk').
  eexists. split; [reflexivity|]. cbn [board castling_rights en_passant].
  split; [|split; [|split; [|split; [|split; [|split]]]]]; try reflexivity.
  - unfold piece_at. rewrite !idx_insert_ne by lia.
    rewrite idx_insert_eq by (rewrite ?length_insert; done).
    apply from_value_with_moved. exact Hfk.
  - unfold piece_at. rewrite idx_insert_eq by (rewrite ?length_insert; done).
    apply from_value_with_moved. exact Hfrk.
  - unfold piece_at. rewrite !idx_insert_ne by lia.
    rewrite idx_insert_eq by (rewrite ?length_insert; done). reflexivity.
  - unfold piece_at. rewrite idx_insert_ne by lia.
    rewrite idx_insert_eq by (rewrite ?length_insert; done). reflexivity.
  - intros q Hq H1 H2 H3 H4. rewrite !idx_insert_ne by lia. reflexivity.
Qed.

(** [MoveGenerator::from sq] yields exactly the moves of [MoveGenerator::all]
    whose source is [sq], in the same order. *)
Theorem MoveGenerator_from_filters_all st sq ms :
  all st = Some ms ->
  MoveGenerator_from st sq = Some (List.filter (fun m => bool_decide (source m = sq)) ms).
Proof.
  intros Hall. destruct (all_Some _ _ Hall) as (pl & Epl & Hf).
  unfold MoveGenerator_from. rewrite Epl. simpl.
  apply filter_legal_from_filter. exact Hf.
Qed.

(** Every move yielded by [MoveGenerator::all] is a normal move of a knight
    of the side to move to an empty square or one held by the opponent. *)
Theorem all_moves_are_knight_moves st ms m :
  all st = Some ms -> In m ms ->
  exists sq to p, m = Move_new sq to /\ move_type m = Normal /\ sq <> to /\
    piece_at (board st) sq = Some p /\ color p = to_move st /\ piece_type p = Some Knight /\
    (piece_at (board st) to = None \/
     exists t, piece_at (board st) to = Some t /\ color t <> to_move st).
Proof.
  intros Hall Hin.
  destruct (all_knight _ _ _ Hall Hin)
    as (sq & p & dr & df & to & Hsq & Hp & Hcol & Hty & Hoffs & Hoff & Hm & Htgt & _).
  destruct (knight_geometry _ _ _ _ Hsq Hoffs Hoff) as (Hto & Hne & _ & _).
  destruct (move_new_decode _ _ Hsq Hto) as (_ & _ & Ety & _).
  exists sq, to, p. subst m. split; [reflexivity|]. split; [exact Ety|].
  split; [intros E; apply Hne; symmetry; exact E|]. done.
Qed.

(** From an on-board square, [knight_moves] yields exactly the moves to the
    on-board squares a knight's jump away that are empty or hold a piece of
    the other colour. *)
Theorem knight_moves_spec st sq m :
  0 <= sq < 64 ->
  In m (knight_moves st sq) <->
  exists to, 0 <= to < 64 /\ m = Move_new sq to /\
    ((Z.abs (rank to - rank sq) = 1 /\ Z.abs (file to - file sq) = 2) \/
     (Z.abs (rank to - rank sq) = 2 /\ Z.abs (file to - file sq) = 1)) /\
    (piece_at (board st) to = None \/
     exists t, piece_at (board st) to = Some t /\ color t <> to_move st).
Proof.
  intros Hsq. split.
  - intros Hin.
    destruct (knight_moves_In _ _ _ Hin) as (dr & df & to & Hoffs & Hoff & Hm & Htgt).
    destruct (knight_geometry _ _ _ _ Hsq Hoffs Hoff) as (Hto & _).
    destruct (proj1 (knight_offset_iff _ _ _ _ Hsq Hto Hoffs) Hoff) as [Hdr Hdf].
    exists to. split; [exact Hto|]. split; [exact Hm|]. split; [|exact Htgt].
    rewrite Hdr, Hdf. apply knight_offsets_abs. exact Hoffs.
  - intros (to & Hto & Hm & Hj & Htgt).
    assert (In (rank to - rank sq, file to - file sq) KNIGHT_OFFSETS) as Hoffs
      by (apply knight_offsets_abs; exact Hj).
    pose proof (proj2 (knight_offset_iff _ _ _ _ Hsq Hto Hoffs) (conj eq_refl eq_refl)) as Hoff.
    unfold knight_moves. apply in_flat_map.
    exists (rank to - rank sq, file to - file sq). split; [exact Hoffs|].
    cbv beta iota. rewrite Hoff.
    destruct Htgt as [Hn | (t & Ht & Hc)].
    + rewrite Hn. left. symmetry. exact Hm.
    + rewrite Ht. rewrite decide_True by exact Hc. left. symmetry. exact Hm.
Qed.

(** [is_square_attacked] answers true only when a knight of the attacking
    colour stands a knight's jump away, answers false only when none does,
    and does not panic when every piece of the attacking colour decodes. *)
Theorem is_square_attacked_knights b s by_ :
  0 <= s < 64 ->
  (is_square_attacked b s by_ = Some true ->
     exists q p, 0 <= q < 64 /\
       ((Z.abs (rank q - rank s) = 1 /\ Z.abs (file q - file s) = 2) \/
        (Z.abs (rank q - rank s) = 2 /\ Z.abs (file q - file s) = 1)) /\
       piece_at b q = Some p /\ color p = by_ /\ piece_type p = Some Knight) /\
  (is_square_attacked b s by_ = Some false ->
     forall q p, 0 <= q < 64 ->
       ((Z.abs (rank q - rank s) = 1 /\ Z.abs (file q - file s) = 2) \/
        (Z.abs (rank q - rank s) = 2 /\ Z.abs (file q - file s) = 1)) ->
       piece_at b q = Some p -> color p = by_ -> piece_type p <> Some Knight) /\
  ((forall q p, 0 <= q < 64 -> piece_at b q = Some p -> color p = by_ -> piece_type p <> None) ->
     is_square_attacked b s by_ <> None).
Proof.
  intros Hs. split; [|split].
  - intros H. destruct (knight_attack_true _ _ _ _ H) as (dr & df & q & p & Hin & Hoff & Hp & Hc & Ht).
    destruct (knight_geometry _ _ _ _ Hs Hin Hoff) as (Hq & _).
    destruct (proj1 (knight_offset_iff _ _ _ _ Hs Hq Hin) Hoff) as [Hdr Hdf].
    exists q, p. split; [exact Hq|]. split; [|tauto].
    rewrite Hdr, Hdf. apply knight_offsets_abs. exact Hin.
  - intros H q p Hq Hj Hp Hc.
    assert (In (rank q - rank s, file q - file s) KNIGHT_OFFSETS) as Hin
      by (apply knight_offsets_abs; exact Hj).
    pose proof (proj2 (knight_offset_iff _ _ _ _ Hs Hq Hin) (conj eq_refl eq_refl)) as Hoff.
    exact (knight_attack_false _ _ _ _ H _ _ q p Hin Hoff Hp Hc).
  - intros Hdec. destruct (knight_attack_total b s by_ KNIGHT_OFFSETS) as [r Hr].
    + intros dr df q p Hin Hoff Hp Hc.
      destruct (knight_geometry _ _ _ _ Hs Hin Hoff) as (Hq & _).
      exact (Hdec q p Hq Hp Hc).
    + unfold is_square_attacked. rewrite Hr. discriminate.
Qed.

(** [find_king] returns the lowest square holding a king of the colour; it
    panics when there is no such king, and when all pieces decode it panics
    only then. *)
Theorem find_king_spec b c :
  (forall k, find_king b c = Some k ->
     0 <= k < 64 /\ is_king_of c (piece_at b k) = true /\
     forall j, 0 <= j < k -> is_king_of c (piece_at b j) = false) /\
  (king_count b c = 0%nat -> find_king b c = None) /\
  ((forall q p, 0 <= q < 64 -> piece_at b q = Some p -> piece_type p <> None) ->
     find_king b c = None -> king_count b c = 0%nat).
Proof.
  split; [|split].
  - intros k H. rewrite find_king_eq, pieces_eq in H.
    destruct (find_king_in_seq b c 64 0 k H) as (Hk & Hking & Hbelow).
    split; [simpl in Hk; lia|]. split; [exact Hking|].
    intros j Hj. apply Hbelow. lia.
  - intros H0. destruct (find_king b c) as [k|] eqn:E; [|reflexivity].
    rewrite find_king_eq, pieces_eq in E.
    destruct (find_king_in_seq b c 64 0 k E) as (Hk & Hking & _).
    rewrite (proj1 (king_count_zero b c) H0 k ltac:(simpl in Hk; lia)) in Hking. discriminate.
  - intros Hdec H. rewrite find_king_eq, pieces_eq in H.
    apply king_count_zero. intros j Hj.
    apply (find_king_in_seq_none b c 64 0); [|exact H|simpl; lia].
    intros j' p Hj' Hp. apply (Hdec j' p); [simpl in Hj'; lia | exact Hp].
Qed.

(** [is_in_check] panics when the side to move has no king. *)
Theorem is_in_check_without_king st :
  king_count (board st) (to_move st) = 0%nat -> is_in_check st = None.
Proof.
  intros H0. unfold is_in_check.
  destruct (find_king (board st) (to_move st)) as [k|] eqn:E; [|reflexivity].
  rewrite find_king_eq, pieces_eq in E.
  destruct (find_king_in_seq (board st) (to_move st) 64 0 k E) as (Hk & Hking & _).
  rewrite (proj1 (king_count_zero _ _) H0 k ltac:(simpl in Hk; lia)) in Hking. discriminate.
Qed.

(** [render_square] prints an on-board square as its file letter a..h
    followed by its rank digit 1..8, and distinct squares print differently. *)
Theorem render_square_algebraic s :
  0 <= s < 64 ->
  render_square s = String.String (Ascii.ascii_of_nat (Z.to_nat (97 + file s)))
                      (String.String (Ascii.ascii_of_nat (Z.to_nat (49 + rank s))) String.EmptyString) /\
  (forall t, 0 <= t < 64 -> render_square s = render_square t -> s = t).
Proof.
  intros Hs. split.
  - assert (forallb (fun s => String.eqb (render_square s)
              (String.String (Ascii.ascii_of_nat (Z.to_nat (97 + file s)))
                 (String.String (Ascii.ascii_of_nat (Z.to_nat (49 + rank s))) String.EmptyString)))
              (map Z.of_nat (seq 0 64)) = true) as Hchk by (vm_compute; reflexivity).
    apply String.eqb_eq. exact (range_forallb _ 64 Hchk s ltac:(lia)).
  - intros t Ht.
    assert (forallb (fun s => forallb (fun t =>
              negb (String.eqb (render_square s) (render_square t)) || (s =? t))
              (map Z.of_nat (seq 0 64))) (map Z.of_nat (seq 0 64)) = true) as Hchk
      by (vm_compute; reflexivity).
    pose proof (range_forallb2 _ Hchk s t Hs Ht) as H. cbv beta in H.
    intros Heq. rewrite (proj2 (String.eqb_eq _ _) Heq) in H. simpl in H.
    apply Z.eqb_eq. exact H.
Qed.

(** [piece_char] panics only on an undecodable kind, never draws a piece as
    the empty-square dot, and draws pieces of different kind or colour
    differently. *)
Theorem piece_char_distinct p q :
  (piece_char p = None <-> piece_type p = None) /\
  piece_char p <> Some EMPTY /\
  (forall x, piece_char p = Some x -> piece_char q = Some x ->
     color p = color q /\ piece_type p = piece_type q).
Proof.
  unfold piece_char.
  destruct (color p), (piece_type p) as [[]|], (color q), (piece_type q) as [[]|];
    cbn [mbind option_bind];
    (split; [split; intros H; first [reflexivity | discriminate H] |]);
    (split; [unfold EMPTY; cbv; intros H; discriminate H |]);
    intros x H1 H2; try discriminate H1; rewrite <- H1 in H2;
    first [split; reflexivity | discriminate H2 | injection H2 as H2; cbv in H2; discriminate H2].
Qed.

(* ================================================================== *)
(** * Witnesses: the claims' theorems at concrete inputs *)

Lemma legal_moves_keep_kings_witness :
  king_count (board initial_state) White = 1%nat /\
  king_count (board initial_state) Black = 1%nat /\
  opp_king_safe initial_state = true /\
  all initial_state = Some [Move_new 1 16; Move_new 1 18; Move_new 6 21; Move_new 6 23] /\
  exists st', apply_move initial_state (Move_new 1 16) = Some st' /\
    king_count (board st') White = 1%nat /\ king_count (board st') Black = 1%nat.
Proof.
  assert (Hw : king_count (board initial_state) White = 1%nat) by (vm_compute; reflexivity).
  assert (Hb : king_count (board initial_state) Black = 1%nat) by (vm_compute; reflexivity).
  assert (Hs : opp_king_safe initial_state = true) by (vm_compute; reflexivity).
  assert (Ha : all initial_state =
            Some [Move_new 1 16; Move_new 1 18; Move_new 6 21; Move_new 6 23])
    by (vm_compute; reflexivity).
  assert (Hi : In (Move_new 1 16) [Move_new 1 16; Move_new 1 18; Move_new 6 21; Move_new 6 23])
    by (simpl; left; reflexivity).
  split; [exact Hw|]. split; [exact Hb|]. split; [exact Hs|]. split; [exact Ha|].
  exact (legal_moves_keep_kings initial_state _ (Move_new 1 16) Hw Hb Hs Ha Hi).
Defined.

Lemma castling_rights_never_regained_witness :
  let st := mkState (place [(4, Piece_new King White); (7, Piece_new Rook White);
                            (60, Piece_new King Black)])
              White (lose cr_all White Kingside) None 0 1 in
  let ms := [Move_new 4 5; Move_new 60 52; Move_new 5 4] in
  exists st', apply_moves st ms = Some st' /\
    has (castling_rights st) White Kingside = false /\
    has (castling_rights st') White Kingside = false.
Proof.
  intros st ms.
  exists (default st (apply_moves st ms)).
  assert (H1 : apply_moves st ms = Some (default st (apply_moves st ms)))
    by (vm_compute; reflexivity).
  assert (H2 : has (castling_rights st) White Kingside = false) by (vm_compute; reflexivity).
  split; [exact H1|]. split; [exact H2|].
  exact (castling_rights_never_regained st ms _ White Kingside H1 H2).
Defined.

Lemma en_passant_relocates_and_captures_witness :
  let st1 := default ep_scenario_state (apply_move ep_scenario_state (Move_new 52 36)) in
  let m := Move_en_passant 35 44 in
  en_passant st1 = Some 44 /\ en_passant_capture m = 36 /\
  exists st', apply_move st1 m = Some st' /\
    piece_at (board st') (target m) = Some (with_moved (Piece_new Pawn White)) /\
    piece_at (board st') (source m) = None /\
    piece_at (board st') (en_passant_capture m) = None /\
    (forall q, 0 <= q < 64 -> q <> source m -> q <> target m ->
       q <> en_passant_capture m -> idx (board st') q = idx (board st1) q).
Proof.
  intros st1 m.
  assert (He : en_passant st1 = Some 44) by (vm_compute; reflexivity).
  assert (Hc : en_passant_capture m = 36) by (vm_compute; reflexivity).
  assert (Hl : length (board st1) = 64%nat) by (vm_compute; reflexivity).
  assert (Ht : move_type m = EnPassant) by (vm_compute; reflexivity).
  assert (Hp : piece_at (board st1) (source m) = Some (Piece_new Pawn White))
    by (vm_compute; reflexivity).
  assert (Hty : piece_type (Piece_new Pawn White) = Some Pawn) by (vm_compute; reflexivity).
  assert (Htg : target m = 44) by (vm_compute; reflexivity).
  assert (Hne : en_passant_capture m <> target m) by (rewrite Hc, Htg; lia).
  split; [exact He|]. split; [exact Hc|].
  exact (en_passant_relocates_and_captures st1 m _ Hl Ht Hp Hty Hne).
Defined.

Lemma move_fields_roundtrip_witness :
  (source (Move_new 12 28) = 12 /\ target (Move_new 12 28) = 28 /\
   move_type (Move_new 12 28) = Normal /\ promotion_piece (Move_new 12 28) = None) /\
  (source (Move_promotion 48 56 Queen) = 48 /\ target (Move_promotion 48 56 Queen) = 56 /\
   move_type (Move_promotion 48 56 Queen) = Promotion /\
   promotion_piece (Move_promotion 48 56 Queen) = Some Queen) /\
  (source (Move_en_passant 35 44) = 35 /\ target (Move_en_passant 35 44) = 44 /\
   move_type (Move_en_passant 35 44) = EnPassant /\
   promotion_piece (Move_en_passant 35 44) = None) /\
  (source (Move_castling 4 6) = 4 /\ target (Move_castling 4 6) = 6 /\
   move_type (Move_castling 4 6) = Castling /\ promotion_piece (Move_castling 4 6) = None).
Proof.
  destruct move_fields_roundtrip as (Hn & Hp & He & Hc).
  split; [apply Hn; lia|].
  split; [apply Hp; [lia | lia | simpl; tauto]|].
  split; [apply He; lia|].
  apply Hc; lia.
Defined.

Lemma offset_exact_witness :
  (offset 9 (-1) (-1) = None <-> ~ (0 <= rank 9 + -1 < 8 /\ 0 <= file 9 + -1 < 8)) /\
  (forall q, offset 9 (-1) (-1) = Some q ->
     0 <= q < 64 /\ rank q = rank 9 + -1 /\ file q = file 9 + -1).
Proof. apply offset_exact; lia. Defined.

Lemma move_piece_from_empty_witness :
  let b := place [(45, Piece_new Knight Black)] in
  piece_at b 0 = None /\
  snd (move_piece b 0 45) = None /\
  forall q, piece_at (fst (move_piece b 0 45)) q = piece_at b q.
Proof.
  intros b.
  assert (H : piece_at b 0 = None) by (vm_compute; reflexivity).
  split; [exact H|]. exact (move_piece_from_empty b 0 45 H).
Defined.

Lemma relocated_pieces_are_moved_witness :
  (exists p', piece_at (fst (move_piece initial_board 1 16)) 16 = Some p' /\
     has_moved p' = true /\ piece_type p' = piece_type (Piece_new Knight White) /\
     color p' = color (Piece_new Knight White)) /\
  moved_since (board initial_state)
    (board (default initial_state (apply_move initial_state (Move_new 1 16)))) /\
  (let st := mkState (place [(4, Piece_new King White); (60, Piece_new King Black);
                             (48, Piece_new Pawn White)])
               White cr_all None 0 1 in
   let m := Move_promotion 48 56 Queen in
   exists p, piece_at (board (default st (apply_move st m))) (target m) = Some p /\
     has_moved p = true).
Proof.
  destruct relocated_pieces_are_moved as (Ha & Hb & Hc).
  split.
  { assert (Hl : length initial_board = 64%nat) by (vm_compute; reflexivity).
    assert (Hp : piece_at initial_board 1 = Some (Piece_new Knight White))
      by (vm_compute; reflexivity).
    apply (Ha initial_board 1 16 _ Hl); [lia | exact Hp]. }
  split.
  { apply (Hb initial_state (Move_new 1 16)). vm_compute. reflexivity. }
  intros st m.
  assert (Hl : length (board st) = 64%nat) by (vm_compute; reflexivity).
  assert (Ht : move_type m = Promotion) by (vm_compute; reflexivity).
  apply (Hc st m _ Hl Ht). vm_compute. reflexivity.
Defined.

(* ================================================================== *)
(** * Witnesses: the further properties at concrete inputs *)

Lemma square_coords_roundtrip_witness :
  0 <= 3 < 8 /\ 0 <= 5 < 8 /\ rank (from_coords 3 5) = 3 /\ file (from_coords 3 5) = 5.
Proof.
  destruct square_coords_roundtrip as [Hrf _].
  destruct (Hrf 3 5 ltac:(lia) ltac:(lia)) as (_ & Hr & Hf).
  split; [lia|]. split; [lia|]. split; [exact Hr | exact Hf].
Defined.


Lemma forward_one_step_witness :
  0 <= 12 < 64 /\ forward 12 White 1 Straight = (if rank 12 <? 7 then Some (12 + 8) else None).
Proof.
  split; [lia|]. exact (forward_one_step 12 White ltac:(lia)).
Defined.

Lemma set_piece_spec_witness :
  length Board_new = 64%nat /\ 0 <= 10 < 64 /\ is_empty_value (Piece_new Rook White) = false /\
  piece_at (fst (set_piece Board_new (Piece_new Rook White) 10)) 10 = Some (Piece_new Rook White).
Proof.
  assert (Hl : length Board_new = 64%nat) by (vm_compute; reflexivity).
  assert (He : is_empty_value (Piece_new Rook White) = false) by (vm_compute; reflexivity).
  split; [exact Hl|]. split; [lia|]. split; [exact He|].
  exact (proj1 (proj2 (set_piece_spec Board_new (Piece_new Rook White) 10 Hl ltac:(lia) He))).
Defined.

Lemma remove_piece_spec_witness :
  length initial_board = 64%nat /\ 0 <= 1 < 64 /\
  snd (remove_piece initial_board 1) = piece_at initial_board 1 /\
  piece_at initial_board 1 = Some (Piece_new Knight White) /\
  piece_at (fst (remove_piece initial_board 1)) 1 = None.
Proof.
  assert (Hl : length initial_board = 64%nat) by (vm_compute; reflexivity).
  assert (Hp : piece_at initial_board 1 = Some (Piece_new Knight White)) by (vm_compute; reflexivity).
  destruct (remove_piece_spec initial_board 1 Hl ltac:(lia)) as (Hs & Hn & _).
  split; [exact Hl|]. split; [lia|]. split; [exact Hs|]. split; [exact Hp | exact Hn].
Defined.

Lemma move_piece_returns_capture_witness :
  let b := place [(43, Piece_new Knight White); (60, Piece_new King Black)] in
  length b = 64%nat /\ 0 <= 43 < 64 /\ 0 <= 60 < 64 /\
  piece_at b 43 = Some (Piece_new Knight White) /\
  snd (move_piece b 43 60) = piece_at b 60 /\ piece_at b 60 = Some (Piece_new King Black) /\
  piece_at (fst (move_piece b 43 60)) 60 = Some (with_moved (Piece_new Knight White)).
Proof.
  intros b.
  assert (Hl : length b = 64%nat) by (vm_compute; reflexivity).
  assert (Hp : piece_at b 43 = Some (Piece_new Knight White)) by (vm_compute; reflexivity).
  assert (Hk : piece_at b 60 = Some (Piece_new King Black)) by (vm_compute; reflexivity).
  destruct (move_piece_returns_capture b 43 60 _ Hl ltac:(lia) ltac:(lia) Hp) as [Hne _].
  destruct (Hne ltac:(lia)) as (Hs & _ & Ht & _).
  split; [exact Hl|]. split; [lia|]. split; [lia|]. split; [exact Hp|].
  split; [exact Hs|]. split; [exact Hk | exact Ht].
Defined.

Lemma lose_all_spec_witness :
  has (lose_all cr_all White) White Kingside = false /\
  has (lose_all cr_all White) Black Queenside = has cr_all Black Queenside.
Proof.
  destruct (lose_all_spec cr_all White) as (H1 & H2 & _).
  split; [exact (H1 Kingside)|]. apply H2. discriminate.
Defined.

Lemma rights_stay_four_bits_witness :
  0 <= 5 < 16 /\ 0 <= lose_all 5 Black < 16 /\ 0 <= gain 5 Black Queenside < 16.
Proof.
  destruct (rights_stay_four_bits 5 ltac:(lia)) as (_ & Hgl & Hla).
  split; [lia|]. split; [exact (Hla Black) | exact (proj1 (Hgl Black Queenside))].
Defined.

Lemma castling_rook_squares_standard_witness :
  0 <= 7 < 8 /\
  castling_rook_squares (Move_castling (from_coords 7 4) (from_coords 7 6)) =
    (from_coords 7 7, from_coords 7 5).
Proof.
  destruct (castling_rook_squares_standard 7 ltac:(lia)) as (_ & H & _).
  split; [lia | exact H].
Defined.

Lemma en_passant_capture_behind_target_witness :
  0 <= 35 < 64 /\ 0 <= 44 < 64 /\ Z.abs (file 44 - file 35) = 1 /\ rank 44 = rank 35 + 1 /\
  en_passant_capture (Move_en_passant 35 44) = 44 - 8.
Proof.
  assert (Hf : Z.abs (file 44 - file 35) = 1) by (vm_compute; reflexivity).
  assert (Hr : rank 44 = rank 35 + 1) by (vm_compute; reflexivity).
  destruct (en_passant_capture_behind_target 35 44 ltac:(lia) ltac:(lia) Hf) as (H & _).
  split; [lia|]. split; [lia|]. split; [exact Hf|]. split; [exact Hr | exact (H Hr)].
Defined.

Lemma apply_move_common_updates_witness :
  exists st', apply_move ep_scenario_state (Move_new 52 36) = Some st' /\
    to_move st' = Color_not (to_move ep_scenario_state) /\
    fullmove_number st' =
      u16 (fullmove_number ep_scenario_state + Color_is_black (to_move ep_scenario_state)).
Proof.
  exists (default ep_scenario_state (apply_move ep_scenario_state (Move_new 52 36))).
  assert (H1 : apply_move ep_scenario_state (Move_new 52 36) =
     Some (default ep_scenario_state (apply_move ep_scenario_state (Move_new 52 36))))
    by (vm_compute; reflexivity).
  split; [exact H1|]. exact (apply_move_common_updates _ _ _ H1).
Defined.

Lemma apply_move_halfmove_clock_witness :
  length (board initial_state) = 64%nat /\
  exists st', apply_move initial_state (Move_new 1 18) = Some st' /\ halfmove_clock st' = 1.
Proof.
  assert (Hl : length (board initial_state) = 64%nat) by (vm_compute; reflexivity).
  split; [exact Hl|].
  exists (default initial_state (apply_move initial_state (Move_new 1 18))).
  assert (H1 : apply_move initial_state (Move_new 1 18) =
     Some (default initial_state (apply_move initial_state (Move_new 1 18))))
    by (vm_compute; reflexivity).
  split; [exact H1|].
  rewrite (apply_move_halfmove_clock _ _ _ Hl H1). vm_compute. reflexivity.
Defined.

Lemma apply_move_en_passant_target_witness :
  exists st', apply_move ep_scenario_state (Move_new 52 36) = Some st' /\ en_passant st' = Some 44.
Proof.
  exists (default ep_scenario_state (apply_move ep_scenario_state (Move_new 52 36))).
  assert (H1 : apply_move ep_scenario_state (Move_new 52 36) =
     Some (default ep_scenario_state (apply_move ep_scenario_state (Move_new 52 36))))
    by (vm_compute; reflexivity).
  split; [exact H1|].
  rewrite (apply_move_en_passant_target _ _ _ H1). vm_compute. reflexivity.
Defined.

Lemma en_passant_from_empty_source_witness :
  length (board kings_only_state) = 64%nat /\ move_type (Move_en_passant 35 44) = EnPassant /\
  piece_at (board kings_only_state) (source (Move_en_passant 35 44)) = None /\
  exists st', apply_move kings_only_state (Move_en_passant 35 44) = Some st' /\
    piece_at (board st') (en_passant_capture (Move_en_passant 35 44)) = None.
Proof.
  assert (Hl : length (board kings_only_state) = 64%nat) by (vm_compute; reflexivity).
  assert (Ht : move_type (Move_en_passant 35 44) = EnPassant) by (vm_compute; reflexivity).
  assert (Hp : piece_at (board kings_only_state) (source (Move_en_passant 35 44)) = None)
    by (vm_compute; reflexivity).
  destruct (en_passant_from_empty_source _ _ Hl Ht Hp) as (st' & H1 & _ & H3 & _).
  split; [exact Hl|]. split; [exact Ht|]. split; [exact Hp|].
  exists st'. split; [exact H1 | exact H3].
Defined.

Lemma apply_promotion_outcome_witness :
  length (board kings_only_state) = 64%nat /\
  move_type (Move_promotion 48 56 Queen) = Promotion /\
  source (Move_promotion 48 56 Queen) <> target (Move_promotion 48 56 Queen) /\
  exists pt st', promotion_piece (Move_promotion 48 56 Queen) = Some pt /\
    apply_move kings_only_state (Move_promotion 48 56 Queen) = Some st' /\
    piece_at (board st') 56 = Some (with_moved (Piece_new pt White)).
Proof.
  assert (Hl : length (board kings_only_state) = 64%nat) by (vm_compute; reflexivity).
  assert (Ht : move_type (Move_promotion 48 56 Queen) = Promotion) by (vm_compute; reflexivity).
  assert (Hs : source (Move_promotion 48 56 Queen) = 48) by (vm_compute; reflexivity).
  assert (Hg : target (Move_promotion 48 56 Queen) = 56) by (vm_compute; reflexivity).
  assert (Hne : source (Move_promotion 48 56 Queen) <> target (Move_promotion 48 56 Queen))
    by (rewrite Hs, Hg; lia).
  destruct (apply_promotion_outcome _ _ Hl Ht Hne) as (pt & st' & Hpt & H1 & H2 & _).
  split; [exact Hl|]. split; [exact Ht|]. split; [exact Hne|].
  exists pt, st'. split; [exact Hpt|]. split; [exact H1|]. rewrite <- Hg. exact H2.
Defined.

Lemma apply_castling_outcome_witness :
  let st := mkState (place [(4, Piece_new King White); (7, Piece_new Rook White);
                            (60, Piece_new King Black)])
              White cr_all None 0 1 in
  let m := Move_castling 4 6 in
  length (board st) = 64%nat /\ move_type m = Castling /\ castling_rook_squares m = (7, 5) /\
  NoDup [source m; target m; 7; 5] /\
  piece_at (board st) (source m) = Some (Piece_new King White) /\
  piece_at (board st) 7 = Some (Piece_new Rook White) /\
  exists st', apply_move st m = Some st' /\
    piece_at (board st') (target m) = Some (with_moved (Piece_new King White)) /\
    piece_at (board st') 5 = Some (with_moved (Piece_new Rook White)).
Proof.
  intros st m.
  assert (Hl : length (board st) = 64%nat) by (vm_compute; reflexivity).
  assert (Ht : move_type m = Castling) by (vm_compute; reflexivity).
  assert (Hr : castling_rook_squares m = (7, 5)) by (vm_compute; reflexivity).
  assert (Hnd : NoDup [source m; target m; 7; 5])
    by (apply (bool_decide_eq_true_1 _); vm_compute; reflexivity).
  assert (Hk : piece_at (board st) (source m) = Some (Piece_new King White))
    by (vm_compute; reflexivity).
  assert (Hrk : piece_at (board st) 7 = Some (Piece_new Rook White)) by (vm_compute; reflexivity).
  destruct (apply_castling_outcome st m 7 5 _ _ Hl Ht Hr Hnd Hk Hrk) as (st' & H1 & H2 & H3 & _).
  split; [exact Hl|]. split; [exact Ht|]. split; [exact Hr|]. split; [exact Hnd|].
  split; [exact Hk|]. split; [exact Hrk|].
  exists st'. split; [exact H1|]. split; [exact H2 | exact H3].
Defined.

Lemma MoveGenerator_from_filters_all_witness :
  all initial_state = Some [Move_new 1 16; Move_new 1 18; Move_new 6 21; Move_new 6 23] /\
  MoveGenerator_from initial_state 6 =
    Some (List.filter (fun m => bool_decide (source m = 6))
            [Move_new 1 16; Move_new 1 18; Move_new 6 21; Move_new 6 23]).
Proof.
  assert (Ha : all initial_state =
            Some [Move_new 1 16; Move_new 1 18; Move_new 6 21; Move_new 6 23])
    by (vm_compute; reflexivity).
  split; [exact Ha | exact (MoveGenerator_from_filters_all initial_state 6 _ Ha)].
Defined.

Lemma all_moves_are_knight_moves_witness :
  all initial_state = Some [Move_new 1 16; Move_new 1 18; Move_new 6 21; Move_new 6 23] /\
  In (Move_new 6 21) [Move_new 1 16; Move_new 1 18; Move_new 6 21; Move_new 6 23] /\
  exists sq to p, Move_new 6 21 = Move_new sq to /\
    piece_at (board initial_state) sq = Some p /\ piece_type p = Some Knight.
Proof.
  assert (Ha : all initial_state =
            Some [Move_new 1 16; Move_new 1 18; Move_new 6 21; Move_new 6 23])
    by (vm_compute; reflexivity).
  assert (Hi : In (Move_new 6 21) [Move_new 1 16; Move_new 1 18; Move_new 6 21; Move_new 6 23])
    by (simpl; right; right; left; reflexivity).
  destruct (all_moves_are_knight_moves _ _ _ Ha Hi) as (sq & to & p & Hm & _ & _ & Hp & _ & Hk & _).
  split; [exact Ha|]. split; [exact Hi|].
  exists sq, to, p. split; [exact Hm|]. split; [exact Hp | exact Hk].
Defined.

Lemma knight_moves_spec_witness :
  0 <= 1 < 64 /\ In (Move_new 1 18) (knight_moves initial_state 1) /\
  exists to, 0 <= to < 64 /\ Move_new 1 18 = Move_new 1 to /\
    ((Z.abs (rank to - rank 1) = 1 /\ Z.abs (file to - file 1) = 2) \/
     (Z.abs (rank to - rank 1) = 2 /\ Z.abs (file to - file 1) = 1)).
Proof.
  assert (Hi : In (Move_new 1 18) (knight_moves initial_state 1))
    by (vm_compute; right; left; reflexivity).
  destruct (proj1 (knight_moves_spec initial_state 1 (Move_new 1 18) ltac:(lia)) Hi)
    as (to & Hto & Hm & Hj & _).
  split; [lia|]. split; [exact Hi|]. exists to. split; [exact Hto|]. split; [exact Hm | exact Hj].
Defined.

Lemma is_square_attacked_knights_witness :
  0 <= 60 < 64 /\ is_square_attacked (board knight_checks_state) 60 White = Some true /\
  exists q p, piece_at (board knight_checks_state) q = Some p /\
    color p = White /\ piece_type p = Some Knight.
Proof.
  assert (Ha : is_square_attacked (board knight_checks_state) 60 White = Some true)
    by (vm_compute; reflexivity).
  destruct (is_square_attacked_knights (board knight_checks_state) 60 White ltac:(lia))
    as (Ht & _ & _).
  destruct (Ht Ha) as (q & p & _ & _ & Hp & Hc & Hk).
  split; [lia|]. split; [exact Ha|]. exists q, p. split; [exact Hp|]. split; [exact Hc | exact Hk].
Defined.

Lemma find_king_spec_witness :
  find_king initial_board Black = Some 60 /\ 0 <= 60 < 64 /\
  is_king_of Black (piece_at initial_board 60) = true.
Proof.
  assert (Hf : find_king initial_board Black = Some 60) by (vm_compute; reflexivity).
  destruct (proj1 (find_king_spec initial_board Black) 60 Hf) as (Hr & Hk & _).
  split; [exact Hf|]. split; [exact Hr | exact Hk].
Defined.

Lemma is_in_check_without_king_witness :
  let st := mkState (place [(60, Piece_new King Black)]) White cr_all None 0 1 in
  king_count (board st) (to_move st) = 0%nat /\ is_in_check st = None.
Proof.
  intros st.
  assert (H0 : king_count (board st) (to_move st) = 0%nat) by (vm_compute; reflexivity).
  split; [exact H0 | exact (is_in_check_without_king st H0)].
Defined.

Lemma render_square_algebraic_witness :
  0 <= 28 < 64 /\
  render_square 28 = String.String (Ascii.ascii_of_nat 101)
                       (String.String (Ascii.ascii_of_nat 52) String.EmptyString).
Proof.
  destruct (render_square_algebraic 28 ltac:(lia)) as [H _].
  split; [lia|]. rewrite H. vm_compute. reflexivity.
Defined.

Lemma piece_char_distinct_witness :
  piece_char (Piece_new Queen Black) = Some BLACK_QUEEN /\
  piece_char (Piece_new Queen Black) <> piece_char (Piece_new Queen White).
Proof.
  assert (Hb : piece_char (Piece_new Queen Black) = Some BLACK_QUEEN) by (vm_compute; reflexivity).
  split; [exact Hb|]. intros Heq.
  destruct (proj2 (proj2 (piece_char_distinct (Piece_new Queen Black) (Piece_new Queen White)))
              BLACK_QUEEN Hb (eq_trans (eq_sym Heq) Hb)) as [Hc _].
  vm_compute in Hc. discriminate Hc.
Defined.
